(** * deoplete.nvim: the parent side of the completion bridge

    A shallow embedding of [rplugin/python3/deoplete/parent.py]: the
    abstract dispatcher [_Parent], its in-process variant [SyncParent] and
    its out-of-process variant [AsyncParent], with the request/response
    correlation of [merge_results].

    Python objects are embedded as a small universe of values, a method is a
    state transformer that either returns or raises, and everything the
    methods reach outside the object (the clock, the pipe to the child, the
    host's error display) appears as an explicit input or as a log. *)

From Stdlib Require Import ZArith Ascii String List Bool.
From stdpp Require Import base gmap strings list.
Import ListNotations.

Local Open Scope string_scope.
Local Open Scope list_scope.

Set Warnings "-register-all".

(** ** Python values *)

(** The values that travel through the dispatcher: contexts handed in by the
    orchestration layer and records decoded from the child's output.  A dict
    is the list of its items in insertion order, keys being strings and
    occurring once.  Floats are left out. *)
Inductive value : Type :=
| VNone
| VBool (b : bool)
| VInt (n : Z)
| VStr (s : string)
| VBytes (b : list Byte.byte)
| VList (l : list value)
| VTuple (l : list value)
| VDict (d : list (string * value)).

(** [typing.Dict[str, typing.Any]] *)
Abbreviation UserContext := (list (string * value)).

Fixpoint dict_get (k : string) (d : list (string * value)) : option value :=
  match d with
  | [] => None
  | (k', v) :: d' => if String.eqb k k' then Some v else dict_get k d'
  end.

Fixpoint bytes_eqb (a b : list Byte.byte) : bool :=
  match a, b with
  | [], [] => true
  | x :: a', y :: b' => Byte.eqb x y && bytes_eqb a' b'
  | _, _ => false
  end.

(** Python's [==] on these values.  [True == 1] and [False == 0] hold as in
    Python; sequences compare element by element; two dicts are equal when
    they have the same number of items and every item of the left one is
    found, with an equal value, in the right one. *)
Fixpoint py_eq (a b : value) {struct a} : bool :=
  match a, b with
  | VNone, VNone => true
  | VBool x, VBool y => Bool.eqb x y
  | VBool x, VInt n => Z.eqb (Z.b2z x) n
  | VInt n, VBool y => Z.eqb n (Z.b2z y)
  | VInt n, VInt m => Z.eqb n m
  | VStr s, VStr t => String.eqb s t
  | VBytes x, VBytes y => bytes_eqb x y
  | VList l, VList l' =>
      (fix seq_eq (l l' : list value) {struct l} : bool :=
         match l, l' with
         | [], [] => true
         | x :: xs, y :: ys => py_eq x y && seq_eq xs ys
         | _, _ => false
         end) l l'
  | VTuple l, VTuple l' =>
      (fix seq_eq (l l' : list value) {struct l} : bool :=
         match l, l' with
         | [], [] => true
         | x :: xs, y :: ys => py_eq x y && seq_eq xs ys
         | _, _ => false
         end) l l'
  | VDict d, VDict d' =>
      Nat.eqb (length d) (length d') &&
      (fix items_in (d : list (string * value)) {struct d} : bool :=
         match d with
         | [] => true
         | (k, v) :: rest =>
             match dict_get k d' with
             | Some v' => py_eq v v' && items_in rest
             | None => false
             end
         end) d
  | _, _ => false
  end.

(** Truth value testing, [bool(x)]. *)
Definition truthy (v : value) : bool :=
  match v with
  | VNone => false
  | VBool b => b
  | VInt n => negb (Z.eqb n 0)
  | VStr s => negb (String.eqb s "")
  | VBytes b => negb (Nat.eqb (length b) 0)
  | VList l | VTuple l => negb (Nat.eqb (length l) 0)
  | VDict d => negb (Nat.eqb (length d) 0)
  end.

Definition str_truthy (s : string) : bool := negb (String.eqb s "").

(** ** Exceptions and the method monad *)

Inductive exn : Type :=
| KeyError (key : string)
| TypeError.

Inductive result (A : Type) : Type :=
| Return (a : A)
| Raise (e : exn).
Arguments Return {A} a.
Arguments Raise {A} e.

Definition returns {A} (r : result A) : bool :=
  match r with Return _ => true | Raise _ => false end.

(** A method of an object with state [St]: it ends by returning or by
    raising, and leaves the object in some state either way (assignments
    made before the exception stay). *)
Definition M (St A : Type) : Type := St -> result A * St.

Definition ret {St A} (a : A) : M St A := fun s => (Return a, s).
Definition raise {St A} (e : exn) : M St A := fun s => (Raise e, s).
Definition bind {St A B} (m : M St A) (k : A -> M St B) : M St B :=
  fun s => match m s with
           | (Return a, s') => k a s'
           | (Raise e, s') => (Raise e, s')
           end.
Definition gets {St A} (f : St -> A) : M St A := fun s => (Return (f s), s).
Definition modify {St} (f : St -> St) : M St unit := fun s => (Return tt, f s).
Definition lift {St A} (r : result A) : M St A := fun s => (r, s).

Notation "x <- m ;; k" := (bind m (fun x => k))
  (at level 100, m at next level, right associativity).
Notation "m ;;; k" := (bind m (fun _ => k))
  (at level 100, right associativity).

(** [x[key]] for a string [key]: a dict is looked up and raises [KeyError]
    on a missing key; every other value raises [TypeError] (sequences want
    integer indices, the rest is not subscriptable). *)
Definition subscript (x : value) (key : string) : result value :=
  match x with
  | VDict d =>
      match dict_get key d with
      | Some v => Return v
      | None => Raise (KeyError key)
      end
  | _ => Raise TypeError
  end.

(** [context[key]] on a context, which is a dict. *)
Definition ctx_get (context : UserContext) (key : string) : result value :=
  subscript (VDict context) key.

(** ** What a call reaches outside the object *)

(** The inputs one method call takes from its surroundings.
    - [str(time.time())] is the text of a float, so it has a first
      character: [now_head] followed by [now_tail].
    - [pipe_writes] tells how the pipe to the child behaves during the call:
      [None] when every [write] goes through, [Some n] when [n] writes go
      through and the next one raises [BrokenPipeError].
    - [proc_stderr] is the text of [self._proc.read_error()], read when the
      pipe breaks. *)
Record world : Type := {
  now_head : ascii;
  now_tail : string;
  pipe_writes : option nat;
  proc_stderr : string
}.

(** [str(time.time())] *)
Definition str_time (w : world) : string := String (now_head w) (now_tail w).

(** A line on the host's error display. *)
Inductive diagnostic : Type :=
| Error (message : string)
| ErrorTb (message : string).

(** Modelled from the spec: [deoplete.util.error], absent from the sources;
    the host collaborator's [display_error(message)], which shows the
    message on the host's error display. *)
Definition error (display : list diagnostic) (message : string)
  : list diagnostic := display ++ [Error message].

(** Modelled from the spec: [deoplete.util.error_tb], absent from the
    sources; it shows the message, with the traceback of the exception being
    handled, on the host's error display. *)
Definition error_tb (display : list diagnostic) (message : string)
  : list diagnostic := display ++ [ErrorTb message].

(** [msgpack.Packer.pack] of the envelope: the packed bytes are identified
    with the record they encode.  The packer is taken on the values it can
    encode: an int outside [-2^63, 2^64 - 1], on which it raises
    [OverflowError], is outside the model, and so is any failure of a write
    other than [BrokenPipeError].  Line 177 is outside any [try], so nothing
    here says that [_put] cannot raise. *)
Definition pack (name : string) (args : list value) (queue_id : string)
  : value :=
  VDict [("name", VStr name); ("args", VList args);
         ("queue_id", VStr queue_id)].

(** ** The abstract dispatcher [_Parent] *)

(** What a concrete strategy provides to [_Parent]: the attributes the
    shared methods touch and the abstract method [_put]. *)
Class Parent (St : Type) : Type := {
  loaded_filters : St -> gset string;
  set_loaded_filters : gset string -> St -> St;
  set_is_debug_enabled : bool -> St -> St;
  _put : world -> string -> list value -> M St (option string)
}.

Section _Parent.
Context {St : Type} `{Parent St}.

Definition enable_logging (w : world) : M St unit :=
  _put w "enable_logging" [] ;;;
  modify (set_is_debug_enabled true).

Definition add_source (w : world) (path : string) : M St unit :=
  _put w "add_source" [VStr path] ;;; ret tt.

Definition add_filter (w : world) (path : string) : M St unit :=
  loaded <- gets loaded_filters ;;
  if decide (path ∈ loaded) then ret tt
  else
    modify (set_loaded_filters ({[path]} ∪ loaded)) ;;;
    _put w "add_filter" [VStr path] ;;; ret tt.

Definition set_source_attributes (w : world) (context : UserContext)
  : M St unit :=
  _put w "set_source_attributes" [VDict context] ;;; ret tt.

Definition set_custom (w : world) (custom : value) : M St unit :=
  _put w "set_custom" [custom] ;;; ret tt.

Definition on_event (w : world) (context : UserContext) : M St unit :=
  _put w "on_event" [VDict context] ;;; ret tt.
End _Parent.

(** The tuples [merge_results] returns without a result. *)
Definition no_result : value := VTuple [VBool false; VBool false; VList []].
Definition still_async : value := VTuple [VBool true; VBool false; VList []].

(** [(results['is_async'], results['is_async'], results['merged_results'])
    if results else (False, [])] *)
Definition result_tuple (results : value) : result value :=
  if truthy results then
    match subscript results "is_async" with
    | Raise e => Raise e
    | Return a =>
        match subscript results "is_async" with
        | Raise e => Raise e
        | Return a' =>
            match subscript results "merged_results" with
            | Raise e => Raise e
            | Return m => Return (VTuple [a; a'; m])
            end
        end
    end
  else Return (VTuple [VBool false; VList []]).

(** ** The in-process strategy [SyncParent] *)

Module SyncParent.
Section WithChild.
(** [deoplete.child.Child] is outside this file: its state and the two
    methods the parent calls are taken as given. *)
Variable Child : Type.
Variable child_main : string -> list value -> M Child unit.
Variable child_merge_results : UserContext -> M Child value.

Record t : Type := {
  _loaded_filters : gset string;
  is_debug_enabled : bool;
  _child : Child
}.

Definition with_child (c : Child) (s : t) : t :=
  {| _loaded_filters := _loaded_filters s;
     is_debug_enabled := is_debug_enabled s;
     _child := c |}.

(** A call into the child, run on the [_child] attribute. *)
Definition in_child {A} (m : M Child A) : M t A :=
  fun s => let '(r, c) := m (_child s) in (r, with_child c s).

Definition merge_results (context : UserContext) : M t value :=
  results <- in_child (child_merge_results context) ;;
  lift (result_tuple results).

Definition _put (w : world) (name : string) (args : list value)
  : M t (option string) :=
  in_child (child_main name args) ;;; ret None.

#[export] Instance parent : Parent t := {
  loaded_filters := _loaded_filters;
  set_loaded_filters := fun l s =>
    {| _loaded_filters := l;
       is_debug_enabled := is_debug_enabled s;
       _child := _child s |};
  set_is_debug_enabled := fun b s =>
    {| _loaded_filters := _loaded_filters s;
       is_debug_enabled := b;
       _child := _child s |};
  _put := _put
}.
End WithChild.
End SyncParent.

(** ** The out-of-process strategy [AsyncParent] *)

Module AsyncParent.

(** The task that runs the child, and the transport of its stdin. *)
Inductive Task : Type := subprocess_task.
Inductive Transport : Type := pipe_transport.

(** The attributes of the object, followed by what it has done outside
    itself: the envelopes [self._packer.pack] has produced, the messages
    written to the child's stdin, and the lines shown on the host's error
    display, each in order. *)
Record t : Type := {
  _loaded_filters : gset string;
  is_debug_enabled : bool;
  _hnd : option Task;
  _stdin : option Transport;
  _queue_id : string;
  _prev_pos : value;
  _queue_in : list value;
  _queue_out : list value;
  _queue_err : list string;
  packed : list value;
  stdin_written : list value;
  vim_errors : list diagnostic
}.

Definition set_loaded (x : gset string) (s : t) : t :=
  {| _loaded_filters := x; is_debug_enabled := is_debug_enabled s;
     _hnd := _hnd s; _stdin := _stdin s; _queue_id := _queue_id s;
     _prev_pos := _prev_pos s; _queue_in := _queue_in s;
     _queue_out := _queue_out s; _queue_err := _queue_err s;
     packed := packed s; stdin_written := stdin_written s;
     vim_errors := vim_errors s |}.

Definition set_debug (x : bool) (s : t) : t :=
  {| _loaded_filters := _loaded_filters s; is_debug_enabled := x;
     _hnd := _hnd s; _stdin := _stdin s; _queue_id := _queue_id s;
     _prev_pos := _prev_pos s; _queue_in := _queue_in s;
     _queue_out := _queue_out s; _queue_err := _queue_err s;
     packed := packed s; stdin_written := stdin_written s;
     vim_errors := vim_errors s |}.

Definition set_hnd (x : option Task) (s : t) : t :=
  {| _loaded_filters := _loaded_filters s;
     is_debug_enabled := is_debug_enabled s; _hnd := x; _stdin := _stdin s;
     _queue_id := _queue_id s; _prev_pos := _prev_pos s;
     _queue_in := _queue_in s; _queue_out := _queue_out s;
     _queue_err := _queue_err s; packed := packed s;
     stdin_written := stdin_written s; vim_errors := vim_errors s |}.

Definition set_stdin (x : option Transport) (s : t) : t :=
  {| _loaded_filters := _loaded_filters s;
     is_debug_enabled := is_debug_enabled s; _hnd := _hnd s; _stdin := x;
     _queue_id := _queue_id s; _prev_pos := _prev_pos s;
     _queue_in := _queue_in s; _queue_out := _queue_out s;
     _queue_err := _queue_err s; packed := packed s;
     stdin_written := stdin_written s; vim_errors := vim_errors s |}.

Definition set_queue_id (x : string) (s : t) : t :=
  {| _loaded_filters := _loaded_filters s;
     is_debug_enabled := is_debug_enabled s; _hnd := _hnd s;
     _stdin := _stdin s; _queue_id := x; _prev_pos := _prev_pos s;
     _queue_in := _queue_in s; _queue_out := _queue_out s;
     _queue_err := _queue_err s; packed := packed s;
     stdin_written := stdin_written s; vim_errors := vim_errors s |}.

Definition set_prev_pos (x : value) (s : t) : t :=
  {| _loaded_filters := _loaded_filters s;
     is_debug_enabled := is_debug_enabled s; _hnd := _hnd s;
     _stdin := _stdin s; _queue_id := _queue_id s; _prev_pos := x;
     _queue_in := _queue_in s; _queue_out := _queue_out s;
     _queue_err := _queue_err s; packed := packed s;
     stdin_written := stdin_written s; vim_errors := vim_errors s |}.

Definition set_queue_in (x : list value) (s : t) : t :=
  {| _loaded_filters := _loaded_filters s;
     is_debug_enabled := is_debug_enabled s; _hnd := _hnd s;
     _stdin := _stdin s; _queue_id := _queue_id s; _prev_pos := _prev_pos s;
     _queue_in := x; _queue_out := _queue_out s; _queue_err := _queue_err s;
     packed := packed s; stdin_written := stdin_written s;
     vim_errors := vim_errors s |}.

Definition set_queue_out (x : list value) (s : t) : t :=
  {| _loaded_filters := _loaded_filters s;
     is_debug_enabled := is_debug_enabled s; _hnd := _hnd s;
     _stdin := _stdin s; _queue_id := _queue_id s; _prev_pos := _prev_pos s;
     _queue_in := _queue_in s; _queue_out := x; _queue_err := _queue_err s;
     packed := packed s; stdin_written := stdin_written s;
     vim_errors := vim_errors s |}.

Definition set_queue_err (x : list string) (s : t) : t :=
  {| _loaded_filters := _loaded_filters s;
     is_debug_enabled := is_debug_enabled s; _hnd := _hnd s;
     _stdin := _stdin s; _queue_id := _queue_id s; _prev_pos := _prev_pos s;
     _queue_in := _queue_in s; _queue_out := _queue_out s; _queue_err := x;
     packed := packed s; stdin_written := stdin_written s;
     vim_errors := vim_errors s |}.

Definition set_packed (x : list value) (s : t) : t :=
  {| _loaded_filters := _loaded_filters s;
     is_debug_enabled := is_debug_enabled s; _hnd := _hnd s;
     _stdin := _stdin s; _queue_id := _queue_id s; _prev_pos := _prev_pos s;
     _queue_in := _queue_in s; _queue_out := _queue_out s;
     _queue_err := _queue_err s; packed := x;
     stdin_written := stdin_written s; vim_errors := vim_errors s |}.

Definition set_written (x : list value) (s : t) : t :=
  {| _loaded_filters := _loaded_filters s;
     is_debug_enabled := is_debug_enabled s; _hnd := _hnd s;
     _stdin := _stdin s; _queue_id := _queue_id s; _prev_pos := _prev_pos s;
     _queue_in := _queue_in s; _queue_out := _queue_out s;
     _queue_err := _queue_err s; packed := packed s; stdin_written := x;
     vim_errors := vim_errors s |}.

Definition set_errors (x : list diagnostic) (s : t) : t :=
  {| _loaded_filters := _loaded_filters s;
     is_debug_enabled := is_debug_enabled s; _hnd := _hnd s;
     _stdin := _stdin s; _queue_id := _queue_id s; _prev_pos := _prev_pos s;
     _queue_in := _queue_in s; _queue_out := _queue_out s;
     _queue_err := _queue_err s; packed := packed s;
     stdin_written := stdin_written s; vim_errors := x |}.

(** The object as [__init__] leaves it: an empty set of loaded filters,
    then [_start_process], which creates the queues and the task; the event
    loop has not yet connected the child's stdin. *)
Definition _start_process (debug : bool) : t :=
  {| _loaded_filters := ∅; is_debug_enabled := debug;
     _hnd := Some subprocess_task; _stdin := None; _queue_id := "";
     _prev_pos := VList []; _queue_in := []; _queue_out := [];
     _queue_err := []; packed := []; stdin_written := [];
     vim_errors := [] |}.

Definition _print_error (message : string) : M t unit :=
  modify (fun s => set_errors (error (vim_errors s) message) s).

(** Called by the process protocol once the pipe is there; the unpacker it
    returns belongs to the protocol and is not modelled. *)
Definition _connect_stdin : M t unit :=
  modify (set_stdin (Some pipe_transport)).

(** The loop [while not self._queue_in.empty():
    self._stdin.write(self._queue_in.get_nowait())] under the given pipe
    behaviour: the messages written, the messages left in the queue, and
    whether a write raised [BrokenPipeError].  The message whose write
    raises has already been taken off the queue. *)
Fixpoint write_queue (writes : option nat) (queue : list value)
  : list value * list value * bool :=
  match queue with
  | [] => ([], [], false)
  | msg :: rest =>
      match writes with
      | Some O => ([], rest, true)
      | Some (S n) =>
          let '(written, kept, broken) := write_queue (Some n) rest in
          (msg :: written, kept, broken)
      | None =>
          let '(written, kept, broken) := write_queue None rest in
          (msg :: written, kept, broken)
      end
  end.

Definition _put (w : world) (name : string) (args : list value)
  : M t (option string) :=
  fun s =>
    match _hnd s with
    | None => (Return None, s)
    | Some _ =>
        let queue_id := str_time w in
        let msg := pack name args queue_id in
        let s := set_packed (packed s ++ [msg]) s in
        let s := set_queue_in (_queue_in s ++ [msg]) s in
        match _stdin s with
        | None => (Return (Some queue_id), s)
        | Some _ =>
            let '(written, kept, broken) :=
              write_queue (pipe_writes w) (_queue_in s) in
            let s := set_written (stdin_written s ++ written)
                       (set_queue_in kept s) in
            if broken then
              let s := set_errors
                         (error_tb (vim_errors s) "Crash in child process")
                         s in
              let s := set_errors
                         (error (vim_errors s) ("stderr=" ++ proc_stderr w))
                         s in
              (Return (Some queue_id), set_hnd None s)
            else (Return (Some queue_id), s)
        end
    end.

#[export] Instance parent : Parent t := {
  loaded_filters := _loaded_filters;
  set_loaded_filters := set_loaded;
  set_is_debug_enabled := set_debug;
  _put := _put
}.

(** The comprehension [[x for x in outs if x['queue_id'] == queue_id]]: the
    frames are visited in order and the first subscript that raises ends
    it. *)
Fixpoint select_frames (queue_id : string) (outs : list value)
  : result (list value) :=
  match outs with
  | [] => Return []
  | x :: rest =>
      match subscript x "queue_id" with
      | Raise e => Raise e
      | Return id =>
          match select_frames queue_id rest with
          | Raise e => Raise e
          | Return found =>
              Return (if py_eq id (VStr queue_id) then x :: found else found)
          end
      end
  end.

Definition dquote : string := String "034"%char EmptyString.

Definition contaminated : string :=
  dquote ++ "stdout" ++ dquote ++ " seems contaminated by sources. " ++
  dquote ++ "stdout" ++ dquote ++ " is used for RPC; Please pipe or discard".

Definition _get (queue_id : string) : M t (list value) :=
  fun s =>
    match _hnd s with
    | None => (Return [], s)
    | Some _ =>
        let s := set_queue_err []
                   (set_errors (fold_left error (_queue_err s) (vim_errors s))
                      s) in
        let outs := _queue_out s in
        let s := set_queue_out [] s in
        match select_frames queue_id outs with
        | Return found => (Return found, s)
        | Raise TypeError =>
            (Return [], set_errors (error_tb (vim_errors s) contaminated) s)
        | Raise e => (Raise e, s)
        end
    end.

(** The test [context['event'] == 'Async' and
    context['position'] == self._prev_pos and self._queue_id], evaluated
    from left to right and stopping at the first false operand. *)
Definition use_previous_id (context : UserContext) : M t bool :=
  event <- lift (ctx_get context "event") ;;
  if py_eq event (VStr "Async") then
    position <- lift (ctx_get context "position") ;;
    prev_pos <- gets _prev_pos ;;
    if py_eq position prev_pos then
      queue_id <- gets _queue_id ;; ret (str_truthy queue_id)
    else ret false
  else ret false.

(** [merge_results] from [get = self._get(queue_id)] on. *)
Definition fetch_results (context : UserContext) (queue_id : string)
  : M t value :=
  get <- _get queue_id ;;
  match get with
  | [] =>
      modify (set_queue_id queue_id) ;;;
      position <- lift (ctx_get context "position") ;;
      modify (set_prev_pos position) ;;;
      ret still_async
  | results :: _ =>
      modify (set_queue_id "") ;;;
      lift (result_tuple results)
  end.

Definition merge_results (w : world) (context : UserContext) : M t value :=
  previous <- use_previous_id context ;;
  if previous then
    queue_id <- gets _queue_id ;;
    fetch_results context queue_id
  else
    queue_id <- _put w "merge_results" [VDict context] ;;
    match queue_id with
    | None => ret no_result
    | Some queue_id =>
        if str_truthy queue_id then fetch_results context queue_id
        else ret no_result
    end.

(** ** Sessions *)

(** What can happen to the object during a session: the seven calls of the
    capability set, made by the orchestration layer, and the three things
    the process protocol does from the event loop (connect the child's
    stdin, queue a decoded frame, queue a chunk of the child's stderr). *)
Inductive call : Type :=
| EnableLogging
| AddSource (path : string)
| AddFilter (path : string)
| SetSourceAttributes (context : UserContext)
| SetCustom (custom : value)
| OnEvent (context : UserContext)
| MergeResults (context : UserContext)
| ConnectStdin
| FrameDecoded (frame : value)
| StderrReceived (text : string).

Definition discard {A} (m : M t A) : M t unit := m ;;; ret tt.

Definition perform (w : world) (c : call) : M t unit :=
  match c with
  | EnableLogging => enable_logging w
  | AddSource path => add_source w path
  | AddFilter path => add_filter w path
  | SetSourceAttributes context => set_source_attributes w context
  | SetCustom custom => set_custom w custom
  | OnEvent context => on_event w context
  | MergeResults context => discard (merge_results w context)
  | ConnectStdin => _connect_stdin
  | FrameDecoded frame =>
      modify (fun s => set_queue_out (_queue_out s ++ [frame]) s)
  | StderrReceived text =>
      modify (fun s => set_queue_err (_queue_err s ++ [text]) s)
  end.

(** The state after a sequence of calls, each with the surroundings it met;
    a call that raises leaves the state it had reached. *)
Fixpoint session (calls : list (world * call)) (s : t) : t :=
  match calls with
  | [] => s
  | (w, c) :: rest => session rest (snd (perform w c s))
  end.

(** How [merge_results] comes by the id it looks up: the outstanding one is
    taken again and the object is as it was, or [_put] hands out a new one
    and leaves the object in a new state. *)
Inductive obtains_id (w : world) (context : UserContext) (s : t)
  : string -> t -> Prop :=
| id_reused :
    use_previous_id context s = (Return true, s) ->
    obtains_id w context s (_queue_id s) s
| id_dispatched queue_id s' :
    use_previous_id context s = (Return false, s) ->
    _put w "merge_results" [VDict context] s = (Return (Some queue_id), s') ->
    obtains_id w context s queue_id s'.

(** A write on the pipe raises [BrokenPipeError] during a [_put] made in
    state [s]: the handle and the pipe are there, and the pipe takes fewer
    writes than the queue will hold once the new envelope is on it. *)
Definition pipe_breaks (w : world) (s : t) : bool :=
  match _hnd s, _stdin s, pipe_writes w with
  | Some _, Some _, Some n => Nat.leb n (length (_queue_in s))
  | _, _, _ => false
  end.

(** Nothing was packed, queued or written between [s] and [s']. *)
Definition nothing_sent (s s' : t) : Prop :=
  packed s' = packed s /\ _queue_in s' = _queue_in s /\
  stdin_written s' = stdin_written s.

End AsyncParent.

(** Whether a decoded frame answers the request [queue_id]: it is a
    mapping whose "queue_id" equals it. *)
Definition answers (queue_id : string) (frame : value) : bool :=
  match subscript frame "queue_id" with
  | Return id => py_eq id (VStr queue_id)
  | Raise _ => false
  end.

(** Two states of the dispatcher that agree on what has been sent, on the
    handle and on the pending poll. *)
Definition same_core (s s' : AsyncParent.t) : Prop :=
  AsyncParent.nothing_sent s s' /\
  AsyncParent._hnd s' = AsyncParent._hnd s /\
  AsyncParent._queue_id s' = AsyncParent._queue_id s /\
  AsyncParent._prev_pos s' = AsyncParent._prev_pos s.

(** ** The interpreter that runs the child *)

Module Executable.

(** What [_get_python_executable] reads: attributes of [sys] and [os], the
    host variable, and the library functions it calls, which depend on the
    platform and on the file system.
    - [version_major] is the text of [sys.version_info[0]] and [version_1]
      the text of [sys.version[1]], as the [%s] conversions print them;
    - [python3_host_prog] is the text of [vim.vars['python3_host_prog']]
      when the variable is set. *)
Record host : Type := {
  sys_executable : string;
  sys_exec_prefix : string;
  os_name : string;
  version_major : string;
  version_1 : string;
  python3_host_prog : option string;
  basename : string -> string;
  lower : string -> string;
  join : string -> string -> string;
  isfile : string -> bool
}.

(** The relative paths tried under [sys.exec_prefix], in order. *)
Definition checks (h : host) : list string :=
  if String.eqb (os_name h) "nt" then
    ["Scripts\python.exe"; "python.exe"]
  else
    ["bin/python" +:+ version_major h +:+ "." +:+ version_1 h;
     "bin/python" +:+ version_major h;
     "bin/python"].

(** The loop [for check in checks]: the first guess that is a file. *)
Fixpoint first_file (h : host) (checks : list string) : option string :=
  match checks with
  | [] => None
  | check :: rest =>
      let guess := join h (sys_exec_prefix h) check in
      if isfile h guess then Some guess else first_file h rest
  end.

Definition _get_python_executable (h : host) : string :=
  let exe := sys_executable h in
  if negb (String.prefix "python" (lower h (basename h exe))) then
    match first_file h (checks h) with
    | Some guess => guess
    | None => default "python3" (python3_host_prog h)
    end
  else exe.

End Executable.

(** ** A session to try things on *)

Module Scenario.
Import AsyncParent.

(** A moment at which the pipe takes every write. *)
Definition at_time (seconds : string) : world :=
  {| now_head := "1"%char; now_tail := seconds; pipe_writes := None;
     proc_stderr := "" |}.

(** A moment at which the child is gone: the first write raises. *)
Definition child_gone (seconds : string) : world :=
  {| now_head := "1"%char; now_tail := seconds; pipe_writes := Some 0;
     proc_stderr := "Traceback" |}.

Definition cursor : value := VList [VInt 0; VInt 1; VInt 5; VInt 0].

Definition async_context : UserContext :=
  [("event", VStr "Async"); ("position", cursor)].

Definition insert_context : UserContext :=
  [("event", VStr "TextChangedI"); ("position", cursor)].

(** A response of the child to the request with the given id. *)
Definition response (queue_id : string) : value :=
  VDict [("queue_id", VStr queue_id); ("is_async", VBool false);
         ("merged_results", VList [VStr "foo"; VStr "bar"])].

Definition started : t := _start_process false.
Definition connected : t := set_stdin (Some pipe_transport) started.

(** The object after a first poll that found no response. *)
Definition polling : t :=
  snd (merge_results (at_time "7.5") async_context started).

(** The object with the response to that poll on its output queue. *)
Definition answered : t := set_queue_out [response "17.5"] polling.

(** The object once the handle has been cleared. *)
Definition dead : t := set_hnd None connected.

(** An in-process child that answers every request at once. *)
Definition echo_child (context : UserContext) : M unit value :=
  ret (response "").
Definition echo_parent : SyncParent.t unit :=
  {| SyncParent._loaded_filters := ∅; SyncParent.is_debug_enabled := false;
     SyncParent._child := tt |}.

(** An in-process child whose [main] fails on every call. *)
Definition failing_child (name : string) (args : list value) : M unit unit :=
  raise (KeyError name).

(** A frame printed by a source: a bare string. *)
Definition noise : value := VStr "print".

(** Two things are buffered while the pipe is not connected. *)
Definition buffering : t :=
  snd (add_source (at_time "7.25") "buffer.py" polling).

(** A POSIX host whose editor embeds Python: only [/usr/bin/python3] is
    there. *)
Definition embedded : Executable.host :=
  {| Executable.sys_executable := "/usr/bin/vim";
     Executable.sys_exec_prefix := "/usr";
     Executable.os_name := "posix";
     Executable.version_major := "3";
     Executable.version_1 := ".";
     Executable.python3_host_prog := None;
     Executable.basename := fun path =>
       if String.eqb path "/usr/bin/vim" then "vim" else path;
     Executable.lower := fun name => name;
     Executable.join := fun a b => a +:+ "/" +:+ b;
     Executable.isfile := fun path => String.eqb path "/usr/bin/python3" |}.

End Scenario.

(** * Properties *)

Module AsyncFacts.
Import AsyncParent.

Ltac run :=
  unfold merge_results, fetch_results, use_previous_id, discard, bind, ret,
    lift, gets, modify, raise, ctx_get in *; simpl in *.

Lemma str_time_truthy (w : world) : str_truthy (str_time w) = true.
Proof. reflexivity. Qed.

Lemma nothing_sent_refl (s : t) : nothing_sent s s.
Proof. repeat split. Qed.

Lemma nothing_sent_trans (s1 s2 s3 : t) :
  nothing_sent s1 s2 -> nothing_sent s2 s3 -> nothing_sent s1 s3.
Proof.
  unfold nothing_sent. intros (? & ? & ?) (? & ? & ?).
  repeat split; congruence.
Qed.

(** The test of [merge_results] reads the object and leaves it alone. *)
Lemma use_previous_id_pure (context : UserContext) (s : t) :
  snd (use_previous_id context s) = s.
Proof.
  run. destruct (dict_get "event" context) as [event|]; simpl; [|done].
  destruct (py_eq event (VStr "Async")); simpl; [|done].
  destruct (dict_get "position" context) as [position|]; simpl; [|done].
  by destruct (py_eq position (_prev_pos s)).
Qed.

Lemma use_previous_id_true (context : UserContext) (s : t) event position :
  dict_get "event" context = Some event ->
  py_eq event (VStr "Async") = true ->
  dict_get "position" context = Some position ->
  py_eq position (_prev_pos s) = true ->
  _queue_id s <> "" ->
  use_previous_id context s = (Return true, s).
Proof.
  intros He Ha Hp Hq Hid. run. rewrite He. simpl. rewrite Ha, Hp. simpl.
  rewrite Hq. unfold str_truthy.
  destruct (String.eqb_spec (_queue_id s) ""); [done|reflexivity].
Qed.

Lemma use_previous_id_other_event (context : UserContext) (s : t) event :
  dict_get "event" context = Some event ->
  py_eq event (VStr "Async") = false ->
  use_previous_id context s = (Return false, s).
Proof. intros He Ha. run. rewrite He. simpl. by rewrite Ha. Qed.

(** [_get] sends nothing and keeps the handle and the pending poll. *)
Lemma _get_frame (queue_id : string) (s : t) :
  let s' := snd (_get queue_id s) in
  nothing_sent s s' /\ _hnd s' = _hnd s /\
  _loaded_filters s' = _loaded_filters s /\
  _queue_id s' = _queue_id s /\ _prev_pos s' = _prev_pos s.
Proof.
  unfold _get, nothing_sent. destruct (_hnd s) eqn:Hh; simpl; [|by rewrite Hh].
  destruct (select_frames queue_id (_queue_out s)) as [found|[key|]];
    simpl; by rewrite ?Hh.
Qed.

Lemma fetch_results_frame (context : UserContext) (queue_id : string) (s : t) :
  let s' := snd (fetch_results context queue_id s) in
  nothing_sent s s' /\ _hnd s' = _hnd s /\
  _loaded_filters s' = _loaded_filters s.
Proof.
  pose proof (_get_frame queue_id s) as Hg. unfold fetch_results, bind.
  destruct (_get queue_id s) as [[get|e] s1]; simpl in *; [|tauto].
  destruct Hg as (Hn & Hh & Hl & _).
  destruct get as [|results rest]; run.
  - destruct (dict_get "position" context); simpl; tauto.
  - tauto.
Qed.

(** [_put] on a cleared handle: no id, and the object is untouched. *)
Lemma _put_dead (w : world) (name : string) (args : list value) (s : t) :
  _hnd s = None -> _put w name args s = (Return None, s).
Proof. intros Hh. unfold _put. by rewrite Hh. Qed.

(** [_put] on a live handle: the id is the time stamp, and exactly one
    envelope, carrying it, has been packed. *)
Lemma _put_live (w : world) (name : string) (args : list value) (s : t) :
  _hnd s <> None ->
  let s' := snd (_put w name args s) in
  fst (_put w name args s) = Return (Some (str_time w)) /\
  packed s' = packed s ++ [pack name args (str_time w)] /\
  _loaded_filters s' = _loaded_filters s /\
  _queue_id s' = _queue_id s /\ _prev_pos s' = _prev_pos s.
Proof.
  intros Hh. unfold _put. destruct (_hnd s) as [task|]; [|done]. simpl.
  destruct (_stdin s) as [tr|]; simpl; [|done].
  destruct (write_queue _ _) as [[written kept] broken].
  by destruct broken.
Qed.

Lemma write_queue_breaks (n : nat) (queue : list value) :
  n < length queue -> (write_queue (Some n) queue).2 = true.
Proof.
  revert n. induction queue as [|msg rest IH]; intros n Hn; simpl in *; [lia|].
  destruct n as [|n]; [done|].
  specialize (IH n ltac:(lia)).
  destruct (write_queue (Some n) rest) as [[written kept] broken]. done.
Qed.

(** When the pipe breaks, [_put] clears the handle and still returns the
    id. *)
Lemma _put_breaks (w : world) (name : string) (args : list value) (s : t) :
  pipe_breaks w s = true ->
  let s' := snd (_put w name args s) in
  fst (_put w name args s) = Return (Some (str_time w)) /\
  _hnd s' = None /\
  _queue_id s' = _queue_id s /\ _prev_pos s' = _prev_pos s.
Proof.
  unfold pipe_breaks, _put.
  destruct (_hnd s) as [task|]; [|done].
  destruct (_stdin s) as [tr|] eqn:Hin; [|done].
  destruct (pipe_writes w) as [n|]; [|done]. intros Hn. simpl.
  rewrite Hin. apply Nat.leb_le in Hn.
  pose proof (write_queue_breaks n
    (_queue_in s ++ [pack name args (str_time w)])) as Hb.
  rewrite length_app in Hb. simpl in Hb. specialize (Hb ltac:(lia)).
  destruct (write_queue _ _) as [[written kept] broken]. simpl in Hb.
  by subst broken.
Qed.

(** ** The reuse path *)

(** C1: when the context's event is "Async", its position equals the
    recorded poll position and a poll id is outstanding, [merge_results]
    issues no envelope (nothing is packed, queued or written) and looks the
    response up under the outstanding id. *)
Theorem merge_results_reuses_outstanding_id
    (w : world) (context : UserContext) (s : t) (event position : value) :
  dict_get "event" context = Some event ->
  py_eq event (VStr "Async") = true ->
  dict_get "position" context = Some position ->
  py_eq position (_prev_pos s) = true ->
  _queue_id s <> "" ->
  merge_results w context s = fetch_results context (_queue_id s) s /\
  nothing_sent s (snd (merge_results w context s)).
Proof.
  intros He Ha Hp Hq Hid.
  pose proof (use_previous_id_true context s event position He Ha Hp Hq Hid)
    as Hu.
  assert (merge_results w context s = fetch_results context (_queue_id s) s)
    as ->.
  { unfold merge_results at 1, bind at 1. rewrite Hu.
    unfold bind, gets. reflexivity. }
  split; [reflexivity|]. apply fetch_results_frame.
Qed.

(** ** The dead process *)

(** C4: when the test for reuse fails, so that [_put] is called, and the
    process handle is cleared, [merge_results] returns (False, False, [])
    and leaves the whole object as it was: no response is fetched and the
    pending poll is not touched. *)
Theorem merge_results_dead_process
    (w : world) (context : UserContext) (s : t) :
  _hnd s = None ->
  fst (use_previous_id context s) = Return false ->
  merge_results w context s = (Return no_result, s).
Proof.
  intros Hh Hu. pose proof (use_previous_id_pure context s) as Hs.
  unfold merge_results, bind at 1.
  destruct (use_previous_id context s) as [r s1]. simpl in *. subst.
  unfold bind. by rewrite (_put_dead _ _ _ _ Hh).
Qed.

Lemma _put_id (w : world) (name : string) (args : list value) (s s' : t)
    (queue_id : string) :
  _put w name args s = (Return (Some queue_id), s') -> queue_id = str_time w.
Proof.
  unfold _put. destruct (_hnd s); [|done]. simpl.
  destruct (_stdin s); simpl; [|congruence].
  destruct (write_queue _ _) as [[written kept] broken].
  destruct broken; congruence.
Qed.

(** Whatever happens in [_put], the filters and the pending poll stay. *)
Lemma _put_frame (w : world) (name : string) (args : list value) (s : t) :
  let s' := snd (_put w name args s) in
  _loaded_filters s' = _loaded_filters s /\
  _queue_id s' = _queue_id s /\ _prev_pos s' = _prev_pos s /\
  (_hnd s = None -> _hnd s' = None).
Proof.
  unfold _put. destruct (_hnd s) as [task|] eqn:Hh; simpl; [|done].
  destruct (_stdin s) as [tr|]; simpl; [|by repeat split].
  destruct (write_queue _ _) as [[written kept] broken].
  destruct broken; by repeat split.
Qed.

(** Once the id is there, the rest of [merge_results] is the fetch. *)
Lemma merge_results_fetch (w : world) (context : UserContext) (s s1 : t)
    (queue_id : string) :
  obtains_id w context s queue_id s1 ->
  merge_results w context s = fetch_results context queue_id s1.
Proof.
  intros [Hu|q s' Hu Hput]; unfold merge_results, bind at 1; rewrite Hu.
  - reflexivity.
  - unfold bind at 1. rewrite Hput. rewrite (_put_id _ _ _ _ _ _ Hput).
    by rewrite str_time_truthy.
Qed.

Lemma use_previous_id_false (context : UserContext) (s : t) :
  fst (use_previous_id context s) = Return false ->
  use_previous_id context s = (Return false, s).
Proof.
  intros Hu. pose proof (use_previous_id_pure context s) as Hs.
  destruct (use_previous_id context s). simpl in *. congruence.
Qed.

Lemma fetch_results_none (context : UserContext) (queue_id : string)
    (s1 s2 : t) (position : value) :
  _get queue_id s1 = (Return [], s2) ->
  dict_get "position" context = Some position ->
  fetch_results context queue_id s1
    = (Return still_async, set_prev_pos position (set_queue_id queue_id s2)).
Proof.
  intros Hget Hpos. unfold fetch_results, bind at 1. rewrite Hget. run.
  by rewrite Hpos.
Qed.

Lemma fetch_results_some (context : UserContext) (queue_id : string)
    (s1 s2 : t) (results : value) (others : list value) :
  _get queue_id s1 = (Return (results :: others), s2) ->
  fetch_results context queue_id s1
    = (result_tuple results, set_queue_id "" s2).
Proof.
  intros Hget. unfold fetch_results, bind at 1. by rewrite Hget.
Qed.

Lemma result_tuple_fields (results is_async merged : value) :
  subscript results "is_async" = Return is_async ->
  subscript results "merged_results" = Return merged ->
  result_tuple results = Return (VTuple [is_async; is_async; merged]).
Proof.
  intros Ha Hm. unfold result_tuple. rewrite Ha, Hm.
  destruct results as [| | | | | | |d]; try discriminate.
  destruct d; [discriminate|reflexivity].
Qed.

Lemma _get_dead (queue_id : string) (s : t) :
  _hnd s = None -> _get queue_id s = (Return [], s).
Proof. intros Hh. unfold _get. by rewrite Hh. Qed.

(** ** The pending poll *)

(** X21: when [merge_results] has its id, reused or freshly dispatched, and
    [_get] returns the empty list under it, [merge_results] returns
    (True, False, []) and records the pending poll: the outstanding id is
    that id and the previous position is the position of the context. *)
Theorem merge_results_records_pending_poll
    (w : world) (context : UserContext) (s s1 s2 : t)
    (queue_id : string) (position : value) :
  obtains_id w context s queue_id s1 ->
  _get queue_id s1 = (Return [], s2) ->
  dict_get "position" context = Some position ->
  let s' := set_prev_pos position (set_queue_id queue_id s2) in
  merge_results w context s = (Return still_async, s') /\
  _queue_id s' = queue_id /\ _prev_pos s' = position.
Proof.
  intros Hid Hget Hpos. simpl. split; [|done].
  rewrite (merge_results_fetch _ _ _ _ _ Hid).
  by apply fetch_results_none.
Qed.

(** ** The result *)

(** C3: when a result is obtained, [merge_results] returns the tuple
    (results.is_async, results.is_async, results.merged_results), in the
    in-process strategy from the child's result and in the out-of-process
    strategy from the first matching frame; the out-of-process strategy has
    then cleared the outstanding poll id, whatever the frame holds. *)
Theorem merge_results_result_tuple :
  (forall (Child : Type) (child_merge_results : UserContext -> M Child value)
          (context : UserContext) (s : SyncParent.t Child) (c' : Child)
          (results is_async merged : value),
     child_merge_results context (SyncParent._child _ s)
       = (Return results, c') ->
     subscript results "is_async" = Return is_async ->
     subscript results "merged_results" = Return merged ->
     SyncParent.merge_results Child child_merge_results context s
       = (Return (VTuple [is_async; is_async; merged]),
          SyncParent.with_child _ c' s)) /\
  (forall (w : world) (context : UserContext) (s s1 s2 : t)
          (queue_id : string) (results : value) (others : list value),
     obtains_id w context s queue_id s1 ->
     _get queue_id s1 = (Return (results :: others), s2) ->
     _queue_id (snd (merge_results w context s)) = "" /\
     forall is_async merged : value,
       subscript results "is_async" = Return is_async ->
       subscript results "merged_results" = Return merged ->
       merge_results w context s
         = (Return (VTuple [is_async; is_async; merged]),
            set_queue_id "" s2)).
Proof.
  split.
  - intros Child cmr context s c' results a m Hc Ha Hm.
    unfold SyncParent.merge_results, SyncParent.in_child, bind, lift.
    rewrite Hc. by rewrite (result_tuple_fields _ _ _ Ha Hm).
  - intros w context s s1 s2 queue_id results others Hid Hget.
    rewrite (merge_results_fetch _ _ _ _ _ Hid).
    rewrite (fetch_results_some _ _ _ _ _ _ Hget).
    split; [reflexivity|]. intros a m Ha Hm.
    by rewrite (result_tuple_fields _ _ _ Ha Hm).
Qed.

(** ** The broken pipe *)

(** C10: on the call during which a write on the pipe raises, [_put] clears
    the process handle and still returns the id it has just generated; a
    [merge_results] that goes through this [_put] returns (True, False, [])
    and records a pending poll, under that id, for the dead process. *)
Theorem broken_pipe_still_returns_id (w : world) (s : t) :
  pipe_breaks w s = true ->
  (forall (name : string) (args : list value),
     fst (_put w name args s) = Return (Some (str_time w)) /\
     _hnd (snd (_put w name args s)) = None) /\
  (forall (context : UserContext) (position : value),
     fst (use_previous_id context s) = Return false ->
     dict_get "position" context = Some position ->
     let s' := snd (merge_results w context s) in
     fst (merge_results w context s) = Return still_async /\
     _queue_id s' = str_time w /\ _prev_pos s' = position /\
     _hnd s' = None).
Proof.
  intros Hb. split.
  - intros name args. pose proof (_put_breaks w name args s Hb) as Hp.
    cbv zeta in Hp. tauto.
  - intros context position Hu Hpos.
    pose proof (_put_breaks w "merge_results" [VDict context] s Hb) as Hp.
    cbv zeta in Hp. destruct Hp as (Hid & Hh & _).
    destruct (_put w "merge_results" [VDict context] s) as [r s1] eqn:Hput.
    simpl in Hid, Hh. subst r.
    assert (obtains_id w context s (str_time w) s1) as Ho.
    { apply id_dispatched; [by apply use_previous_id_false|done]. }
    rewrite (merge_results_fetch _ _ _ _ _ Ho).
    rewrite (fetch_results_none _ _ _ _ _ (_get_dead _ _ Hh) Hpos).
    by repeat split.
Qed.

(** ** Sessions *)

(** [merge_results] by the outcome of its test and of [_put]. *)
Lemma merge_results_cases (w : world) (context : UserContext) (s : t) :
  merge_results w context s =
  match fst (use_previous_id context s) with
  | Return true => fetch_results context (_queue_id s) s
  | Return false =>
      match _put w "merge_results" [VDict context] s with
      | (Return (Some queue_id), s1) => fetch_results context queue_id s1
      | (Return None, s1) => (Return no_result, s1)
      | (Raise e, s1) => (Raise e, s1)
      end
  | Raise e => (Raise e, s)
  end.
Proof.
  pose proof (use_previous_id_pure context s) as Hs.
  unfold merge_results, bind.
  destruct (use_previous_id context s) as [[[|]|e] s0]; simpl in *; subst;
    try reflexivity.
  destruct (_put w "merge_results" [VDict context] s) as [[[q|]|e] s1] eqn:Hp;
    try reflexivity.
  rewrite (_put_id _ _ _ _ _ _ Hp). by rewrite str_time_truthy.
Qed.

Lemma merge_results_loaded (w : world) (context : UserContext) (s : t) :
  _loaded_filters (snd (merge_results w context s)) = _loaded_filters s.
Proof.
  rewrite merge_results_cases.
  destruct (fst (use_previous_id context s)) as [[|]|e]; [| |done].
  - apply fetch_results_frame.
  - pose proof (_put_frame w "merge_results" [VDict context] s) as Hp.
    cbv zeta in Hp. destruct Hp as (Hl & _).
    destruct (_put w "merge_results" [VDict context] s) as [[[q|]|e] s1];
      simpl in *; try done.
    rewrite <- Hl. apply fetch_results_frame.
Qed.

Lemma merge_results_dead (w : world) (context : UserContext) (s : t) :
  _hnd s = None ->
  _hnd (snd (merge_results w context s)) = None /\
  nothing_sent s (snd (merge_results w context s)).
Proof.
  intros Hh. rewrite merge_results_cases.
  destruct (fst (use_previous_id context s)) as [[|]|e].
  - pose proof (fetch_results_frame context (_queue_id s) s) as Hf.
    cbv zeta in Hf. destruct Hf as (Hn & Hh' & _).
    split; [congruence|exact Hn].
  - rewrite (_put_dead _ _ _ _ Hh). simpl.
    split; [done|apply nothing_sent_refl].
  - simpl. split; [done|apply nothing_sent_refl].
Qed.

(** With the handle cleared, a call keeps it cleared and sends nothing. *)
Lemma perform_dead (w : world) (c : call) (s : t) :
  _hnd s = None ->
  _hnd (snd (perform w c s)) = None /\ nothing_sent s (snd (perform w c s)).
Proof.
  intros Hh.
  destruct c as [|path|path|context|custom|context|context| |frame|text];
    simpl.
  - unfold enable_logging, bind. simpl. rewrite (_put_dead _ _ _ _ Hh).
    simpl. split; [done|by repeat split].
  - unfold add_source, bind. simpl. rewrite (_put_dead _ _ _ _ Hh).
    simpl. split; [done|by repeat split].
  - unfold add_filter, bind, gets. simpl.
    destruct (decide (path ∈ _loaded_filters s)); simpl.
    + split; [done|by repeat split].
    + rewrite _put_dead by done. simpl. split; [done|by repeat split].
  - unfold set_source_attributes, bind. simpl.
    rewrite (_put_dead _ _ _ _ Hh). simpl.
    split; [done|by repeat split].
  - unfold set_custom, bind. simpl. rewrite (_put_dead _ _ _ _ Hh).
    simpl. split; [done|by repeat split].
  - unfold on_event, bind. simpl. rewrite (_put_dead _ _ _ _ Hh).
    simpl. split; [done|by repeat split].
  - pose proof (merge_results_dead w context s Hh) as Hm.
    unfold discard, bind.
    destruct (merge_results w context s) as [[v|e] s1]; exact Hm.
  - split; [done|by repeat split].
  - split; [done|by repeat split].
  - split; [done|by repeat split].
Qed.

(** No call takes a path out of the set of loaded filters. *)
Lemma perform_loaded (w : world) (c : call) (s : t) :
  _loaded_filters s ⊆ _loaded_filters (snd (perform w c s)).
Proof.
  destruct c as [|path|path|context|custom|context|context| |frame|text];
    simpl.
  - pose proof (_put_frame w "enable_logging" [] s) as Hp.
    unfold enable_logging, bind. simpl.
    destruct (_put w "enable_logging" [] s) as [[q|e] s1]; simpl in *;
      destruct Hp as (-> & _); done.
  - pose proof (_put_frame w "add_source" [VStr path] s) as Hp.
    unfold add_source, bind. simpl.
    destruct (_put w "add_source" [VStr path] s) as [[q|e] s1]; simpl in *;
      destruct Hp as (-> & _); done.
  - unfold add_filter, bind, gets. simpl.
    destruct (decide (path ∈ _loaded_filters s)); simpl; [done|].
    pose proof (_put_frame w "add_filter" [VStr path]
      (set_loaded ({[path]} ∪ _loaded_filters s) s)) as Hp.
    destruct (_put w "add_filter" [VStr path] _) as [[q|e] s1]; simpl in *;
      destruct Hp as (-> & _); set_solver.
  - pose proof (_put_frame w "set_source_attributes" [VDict context] s) as Hp.
    unfold set_source_attributes, bind. simpl.
    destruct (_put w "set_source_attributes" [VDict context] s)
      as [[q|e] s1]; simpl in *; destruct Hp as (-> & _); done.
  - pose proof (_put_frame w "set_custom" [custom] s) as Hp.
    unfold set_custom, bind. simpl.
    destruct (_put w "set_custom" [custom] s) as [[q|e] s1]; simpl in *;
      destruct Hp as (-> & _); done.
  - pose proof (_put_frame w "on_event" [VDict context] s) as Hp.
    unfold on_event, bind. simpl.
    destruct (_put w "on_event" [VDict context] s) as [[q|e] s1]; simpl in *;
      destruct Hp as (-> & _); done.
  - pose proof (merge_results_loaded w context s) as Hm.
    unfold discard, bind.
    destruct (merge_results w context s) as [[v|e] s1]; simpl in *;
      by rewrite Hm.
  - done.
  - done.
  - done.
Qed.

Lemma session_loaded (calls : list (world * call)) (s : t) :
  _loaded_filters s ⊆ _loaded_filters (session calls s).
Proof.
  revert s. induction calls as [|[w c] rest IH]; intros s; simpl; [done|].
  etrans; [apply (perform_loaded w c s)|apply IH].
Qed.

Lemma session_dead (calls : list (world * call)) (s : t) :
  _hnd s = None ->
  _hnd (session calls s) = None /\ nothing_sent s (session calls s).
Proof.
  revert s. induction calls as [|[w c] rest IH]; intros s Hh; simpl.
  - split; [done|apply nothing_sent_refl].
  - destruct (perform_dead w c s Hh) as [Hh1 Hn1].
    destruct (IH _ Hh1) as [Hh2 Hn2].
    split; [done|]. eapply nothing_sent_trans; eassumption.
Qed.

(** C5: once the process handle has been cleared, no call of the
    capability set and nothing the event loop does sets it again; nothing
    is packed, queued or written from then on, and every [_put] returns no
    id and leaves the object as it was. *)
Theorem cleared_handle_is_permanent (calls : list (world * call)) (s : t) :
  _hnd s = None ->
  let s' := session calls s in
  _hnd s' = None /\ nothing_sent s s' /\
  forall (w : world) (name : string) (args : list value),
    _put w name args s' = (Return None, s').
Proof.
  intros Hh. destruct (session_dead calls s Hh) as [Hh' Hn]. simpl.
  repeat split; try apply Hn; [done|].
  intros w name args. by apply _put_dead.
Qed.

(** ** Events other than "Async" *)

(** C8, as the code has it: when the context's event is not "Async",
    [merge_results] never takes the outstanding id, whatever the position
    and the recorded poll are, and calls [_put].  With the process handle
    set, that packs one fresh envelope under a newly generated id, which is
    the id looked up; with the handle cleared, nothing is packed and
    (False, False, []) is returned. *)
Theorem merge_results_other_event_uses_put
    (w : world) (context : UserContext) (s : t) (event : value) :
  dict_get "event" context = Some event ->
  py_eq event (VStr "Async") = false ->
  let fresh := pack "merge_results" [VDict context] (str_time w) in
  (_hnd s <> None ->
   merge_results w context s
     = fetch_results context (str_time w)
         (snd (_put w "merge_results" [VDict context] s)) /\
   packed (snd (merge_results w context s)) = packed s ++ [fresh]) /\
  (_hnd s = None -> merge_results w context s = (Return no_result, s)).
Proof.
  intros He Ha. cbv zeta.
  pose proof (use_previous_id_other_event context s event He Ha) as Hu.
  rewrite merge_results_cases, Hu. simpl. split.
  - intros Hh.
    pose proof (_put_live w "merge_results" [VDict context] s Hh) as Hp.
    cbv zeta in Hp. destruct Hp as (Hid & Hpk & _).
    destruct (_put w "merge_results" [VDict context] s) as [r s1].
    simpl in *. subst r. split; [reflexivity|].
    rewrite <- Hpk. apply fetch_results_frame.
  - intros Hh. by rewrite (_put_dead _ _ _ _ Hh).
Qed.

(** ** Filters *)

(** C9, as the code has it: the first [add_filter] of a path returns, adds
    the path to the set of loaded filters of the object and calls [_put]
    once, which packs exactly one envelope when the process handle is set
    and none when it is cleared; whatever happens to the object afterwards,
    every later [add_filter] of that path returns without changing anything
    in it. *)
Theorem add_filter_once (w : world) (path : string) (s : t) :
  path ∉ _loaded_filters s ->
  let s' := snd (add_filter w path s) in
  fst (add_filter w path s) = Return tt /\
  _loaded_filters s' = {[path]} ∪ _loaded_filters s /\
  (_hnd s <> None ->
   packed s' = packed s ++ [pack "add_filter" [VStr path] (str_time w)]) /\
  (_hnd s = None -> nothing_sent s s') /\
  forall (calls : list (world * call)) (w' : world),
    add_filter w' path (session calls s') = (Return tt, session calls s').
Proof.
  intros Hnew. cbv zeta.
  set (s0 := set_loaded ({[path]} ∪ _loaded_filters s) s).
  assert (add_filter w path s =
          (Return tt, snd (_put w "add_filter" [VStr path] s0))) as Hadd.
  { unfold add_filter, bind, gets. simpl.
    destruct (decide (path ∈ _loaded_filters s)); [done|]. simpl. fold s0.
    destruct (_hnd s0) eqn:Hh.
    - pose proof (_put_live w "add_filter" [VStr path] s0) as Hp.
      cbv zeta in Hp. rewrite Hh in Hp. destruct (Hp ltac:(done)) as (Hid & _).
      destruct (_put w "add_filter" [VStr path] s0) as [r s1].
      simpl in Hid. by subst r.
    - by rewrite (_put_dead _ _ _ _ Hh). }
  rewrite Hadd. simpl.
  pose proof (_put_frame w "add_filter" [VStr path] s0) as Hf.
  cbv zeta in Hf. destruct Hf as (Hl & _).
  split; [done|]. split; [by rewrite Hl|]. split; [|split].
  - intros Hh.
    pose proof (_put_live w "add_filter" [VStr path] s0 Hh) as Hp.
    cbv zeta in Hp. tauto.
  - intros Hh. by rewrite (_put_dead w "add_filter" [VStr path] s0 Hh).
  - intros calls w'.
    set (s1 := snd (_put w "add_filter" [VStr path] s0)) in *.
    pose proof (session_loaded calls s1) as Hs.
    unfold add_filter, bind, gets. simpl.
    destruct (decide (path ∈ _loaded_filters (session calls s1)));
      [done|].
    exfalso. apply n, Hs. rewrite Hl. simpl.
    apply elem_of_union. left. by apply elem_of_singleton.
Qed.

(** ** Frames that are not responses *)

(** X20: a frame that is not a mapping, met before any mapping without a
    "queue_id", makes [_get] return no match and show the diagnostic. *)
Lemma _get_contaminated (queue_id : string) (s : t)
    (good rest : list value) (frame : value) :
  _hnd s <> None ->
  _queue_out s = good ++ frame :: rest ->
  Forall (fun x => exists id, subscript x "queue_id" = Return id) good ->
  (forall d, frame <> VDict d) ->
  let s' := snd (_get queue_id s) in
  fst (_get queue_id s) = Return [] /\
  _queue_out s' = [] /\
  vim_errors s' = fold_left error (_queue_err s) (vim_errors s)
                    ++ [ErrorTb contaminated].
Proof.
  intros Hh Hout Hgood Hframe. cbv zeta.
  assert (select_frames queue_id (_queue_out s) = Raise TypeError) as Hsel.
  { rewrite Hout. clear Hout. induction Hgood as [|x good [id Hx] _ IH]; simpl.
    - destruct frame; try reflexivity. by destruct (Hframe d).
    - rewrite Hx. simpl in IH. by rewrite IH. }
  unfold _get. destruct (_hnd s); [|done]. simpl. by rewrite Hsel.
Qed.

(** C6: a drained batch that holds a frame which is not a mapping, behind a
    mapping without a "queue_id": [_get] raises [KeyError] out of the
    comprehension, returns nothing to its caller, and the diagnostic about
    the contaminated output is not shown. *)
Theorem _get_key_error_escapes :
  let s := set_queue_out [VDict []; VStr "print"] Scenario.polling in
  _get "17.5" s = (Raise (KeyError "queue_id"), set_queue_out [] s) /\
  vim_errors (snd (_get "17.5" s)) = vim_errors s.
Proof. split; reflexivity. Qed.

(** C7: a poll that drains a mapping frame without a "queue_id" does not
    return: [merge_results] ends with the [KeyError] raised in [_get]. *)
Theorem merge_results_key_error_escapes :
  let s := set_queue_out [VDict []] Scenario.polling in
  fst (merge_results (Scenario.at_time "8.5") Scenario.async_context s)
    = Raise (KeyError "queue_id") /\
  returns
    (fst (merge_results (Scenario.at_time "8.5") Scenario.async_context s))
    = false.
Proof. split; reflexivity. Qed.

(** C2: a poll that dispatches a fresh id while a mapping without a
    "queue_id" is on the output queue.  The call has its id and no drained
    frame matches it, yet [merge_results] does not return (True, False, []):
    it ends with the [KeyError] raised in [_get], and the pending poll is
    not recorded, the outstanding id being still the one of the poll
    before. *)
Theorem merge_results_pending_poll_not_recorded :
  let w := Scenario.at_time "8.5" in
  let context := Scenario.insert_context in
  let s := set_queue_out [VDict []] Scenario.polling in
  obtains_id w context s "18.5"
    (snd (_put w "merge_results" [VDict context] s)) /\
  List.filter (answers "18.5") (_queue_out s) = [] /\
  fst (merge_results w context s) = Raise (KeyError "queue_id") /\
  _queue_id (snd (merge_results w context s)) = "17.5".
Proof.
  cbv zeta. split; [|by repeat split].
  apply id_dispatched; reflexivity.
Qed.

(** ** The properties on the scenario *)

Lemma merge_results_reuses_outstanding_id_witness :
  _queue_id Scenario.polling = "17.5" /\
  merge_results (Scenario.at_time "8.5") Scenario.async_context
      Scenario.polling
    = fetch_results Scenario.async_context "17.5" Scenario.polling /\
  nothing_sent Scenario.polling
    (snd (merge_results (Scenario.at_time "8.5") Scenario.async_context
            Scenario.polling)).
Proof.
  split; [reflexivity|].
  apply (merge_results_reuses_outstanding_id (Scenario.at_time "8.5")
           Scenario.async_context Scenario.polling
           (VStr "Async") Scenario.cursor);
    [reflexivity|reflexivity|reflexivity|reflexivity|discriminate].
Defined.

Lemma merge_results_dead_process_witness :
  _hnd Scenario.dead = None /\
  merge_results (Scenario.at_time "8.5") Scenario.insert_context
      Scenario.dead
    = (Return no_result, Scenario.dead).
Proof.
  split; [reflexivity|].
  apply (merge_results_dead_process (Scenario.at_time "8.5")
           Scenario.insert_context Scenario.dead); reflexivity.
Defined.

Lemma merge_results_records_pending_poll_witness :
  merge_results (Scenario.at_time "7.5") Scenario.async_context
      Scenario.started
    = (Return still_async, Scenario.polling) /\
  _queue_id Scenario.polling = "17.5" /\
  _prev_pos Scenario.polling = Scenario.cursor.
Proof.
  apply (merge_results_records_pending_poll (Scenario.at_time "7.5")
           Scenario.async_context Scenario.started
           (snd (_put (Scenario.at_time "7.5") "merge_results"
                   [VDict Scenario.async_context] Scenario.started))
           (snd (_put (Scenario.at_time "7.5") "merge_results"
                   [VDict Scenario.async_context] Scenario.started))
           "17.5" Scenario.cursor).
  - apply id_dispatched; reflexivity.
  - reflexivity.
  - reflexivity.
Defined.

Lemma merge_results_result_tuple_witness :
  SyncParent.merge_results unit Scenario.echo_child Scenario.async_context
      Scenario.echo_parent
    = (Return (VTuple [VBool false; VBool false;
                       VList [VStr "foo"; VStr "bar"]]),
       Scenario.echo_parent) /\
  merge_results (Scenario.at_time "8.5") Scenario.async_context
      Scenario.answered
    = (Return (VTuple [VBool false; VBool false;
                       VList [VStr "foo"; VStr "bar"]]),
       set_queue_id "" (set_queue_out [] Scenario.answered)).
Proof.
  destruct merge_results_result_tuple as [Hsync Hasync]. split.
  - apply (Hsync unit Scenario.echo_child Scenario.async_context
             Scenario.echo_parent tt (Scenario.response "")); reflexivity.
  - apply (Hasync (Scenario.at_time "8.5") Scenario.async_context
             Scenario.answered Scenario.answered
             (set_queue_out [] Scenario.answered) "17.5"
             (Scenario.response "17.5") []).
    + apply (id_reused (Scenario.at_time "8.5") Scenario.async_context
               Scenario.answered). reflexivity.
    + reflexivity.
    + reflexivity.
    + reflexivity.
Defined.

Lemma broken_pipe_still_returns_id_witness :
  pipe_breaks (Scenario.child_gone "8.5") Scenario.connected = true /\
  fst (merge_results (Scenario.child_gone "8.5") Scenario.insert_context
         Scenario.connected) = Return still_async /\
  _hnd (snd (merge_results (Scenario.child_gone "8.5")
               Scenario.insert_context Scenario.connected)) = None.
Proof.
  split; [reflexivity|].
  destruct (broken_pipe_still_returns_id (Scenario.child_gone "8.5")
              Scenario.connected eq_refl) as [_ Hmerge].
  destruct (Hmerge Scenario.insert_context Scenario.cursor eq_refl eq_refl)
    as (Hret & _ & _ & Hh).
  split; [exact Hret|exact Hh].
Defined.

Lemma cleared_handle_is_permanent_witness :
  _hnd Scenario.dead = None /\
  _hnd (session [(Scenario.at_time "8.5", EnableLogging);
                 (Scenario.at_time "9.5", ConnectStdin);
                 (Scenario.at_time "9.75",
                  MergeResults Scenario.insert_context)]
          Scenario.dead) = None.
Proof.
  split; [reflexivity|].
  apply (cleared_handle_is_permanent
           [(Scenario.at_time "8.5", EnableLogging);
            (Scenario.at_time "9.5", ConnectStdin);
            (Scenario.at_time "9.75", MergeResults Scenario.insert_context)]
           Scenario.dead). reflexivity.
Defined.

(** With the handle cleared, a context whose event is "TextChangedI" gets
    no envelope: the object is untouched, and what has been packed is not
    what it was plus a fresh envelope. *)
Lemma other_event_dead_process_sends_nothing :
  dict_get "event" Scenario.insert_context = Some (VStr "TextChangedI") /\
  py_eq (VStr "TextChangedI") (VStr "Async") = false /\
  merge_results (Scenario.at_time "8.5") Scenario.insert_context
      Scenario.dead
    = (Return no_result, Scenario.dead) /\
  packed (snd (merge_results (Scenario.at_time "8.5")
                 Scenario.insert_context Scenario.dead))
    <> packed Scenario.dead
         ++ [pack "merge_results" [VDict Scenario.insert_context] "18.5"].
Proof. repeat split; discriminate. Qed.

Lemma merge_results_other_event_uses_put_witness :
  packed (snd (merge_results (Scenario.at_time "8.5")
                 Scenario.insert_context Scenario.polling))
    = packed Scenario.polling
        ++ [pack "merge_results" [VDict Scenario.insert_context] "18.5"].
Proof.
  apply (merge_results_other_event_uses_put (Scenario.at_time "8.5")
           Scenario.insert_context Scenario.polling (VStr "TextChangedI")
           eq_refl eq_refl).
  discriminate.
Defined.

(** With the handle cleared, the first [add_filter] of a path packs no
    envelope. *)
Lemma add_filter_dead_process_sends_nothing :
  ("matcher_fuzzy.py" ∉ _loaded_filters Scenario.dead) /\
  packed (snd (add_filter (Scenario.at_time "8.5") "matcher_fuzzy.py"
                 Scenario.dead)) = [] /\
  _queue_in (snd (add_filter (Scenario.at_time "8.5") "matcher_fuzzy.py"
                    Scenario.dead)) = [] /\
  stdin_written (snd (add_filter (Scenario.at_time "8.5") "matcher_fuzzy.py"
                        Scenario.dead)) = [].
Proof. split; [set_solver|]. repeat split. Qed.

Lemma add_filter_once_witness :
  ("matcher_fuzzy.py" ∉ _loaded_filters Scenario.started) /\
  packed (snd (add_filter (Scenario.at_time "8.5") "matcher_fuzzy.py"
                 Scenario.started))
    = [pack "add_filter" [VStr "matcher_fuzzy.py"] "18.5"].
Proof.
  assert ("matcher_fuzzy.py" ∉ _loaded_filters Scenario.started) as Hnew
    by (apply not_elem_of_empty).
  split; [exact Hnew|].
  destruct (add_filter_once (Scenario.at_time "8.5") "matcher_fuzzy.py"
              Scenario.started Hnew) as (_ & _ & Hlive & _).
  apply Hlive. discriminate.
Defined.

End AsyncFacts.

(** * The pipe to the child *)

Module PipeFacts.
Import AsyncParent AsyncFacts.

(** What the writing loop does with a queue: without a failure the whole
    queue is written and nothing is kept; with one, as many messages as the
    pipe takes are written, the next one is lost and the rest is kept. *)
Lemma write_queue_spec (writes : option nat) (queue : list value) :
  match write_queue writes queue with
  | (written, kept, true) =>
      exists lost n, writes = Some n /\ length written = n /\
                     queue = written ++ lost :: kept
  | (written, kept, false) => written = queue /\ kept = []
  end.
Proof.
  revert writes. induction queue as [|msg rest IH]; intros writes; simpl.
  - done.
  - destruct writes as [[|n]|].
    + exists msg, 0. done.
    + specialize (IH (Some n)).
      destruct (write_queue (Some n) rest) as [[written kept] [|]].
      * destruct IH as (lost & k & Hk & Hlen & Hq). exists lost, (S n).
        simplify_eq. done.
      * destruct IH as [-> ->]. done.
    + specialize (IH None).
      destruct (write_queue None rest) as [[written kept] [|]].
      * destruct IH as (lost & k & Hk & _). done.
      * destruct IH as [-> ->]. done.
Qed.

Lemma write_queue_healthy (writes : option nat) (queue : list value) :
  match writes with Some n => length queue <= n | None => True end ->
  write_queue writes queue = (queue, [], false).
Proof.
  intros Hw. pose proof (write_queue_spec writes queue) as Hs.
  destruct (write_queue writes queue) as [[written kept] [|]].
  - destruct Hs as (lost & n & -> & Hlen & ->).
    rewrite length_app in Hw. simpl in Hw. lia.
  - by destruct Hs as [-> ->].
Qed.

(** A [_put] during which no write fails keeps the handle. *)
Lemma _put_healthy (w : world) (name : string) (args : list value) (s : t) :
  pipe_breaks w s = false ->
  _hnd (snd (_put w name args s)) = _hnd s.
Proof.
  unfold pipe_breaks, _put.
  destruct (_hnd s) as [task|] eqn:Hh; [|by intros _].
  simpl. destruct (_stdin s) as [tr|] eqn:Hin; simpl; [|done].
  intros Hw.
  rewrite write_queue_healthy.
  - done.
  - destruct (pipe_writes w) as [n|]; [|done].
    apply Nat.leb_gt in Hw. rewrite length_app. simpl. lia.
Qed.

Lemma same_core_refl (s : t) : same_core s s.
Proof. repeat split. Qed.

(** Every call but [merge_results] is, for what is sent and for the pending
    poll, either nothing or one [_put]. *)
Lemma perform_shape (w : world) (c : call) (s : t) :
  (forall context, c <> MergeResults context) ->
  exists s0, same_core s s0 /\
    (same_core s0 (snd (perform w c s)) \/
     exists name args,
       same_core (snd (_put w name args s0)) (snd (perform w c s))).
Proof.
  intros Hc.
  destruct c as [|path|path|context|custom|context|context| |frame|text];
    simpl.
  - exists s. split; [apply same_core_refl|]. right.
    exists "enable_logging", []. unfold enable_logging, bind. simpl.
    destruct (_put w "enable_logging" [] s) as [[q|e] s1]; by repeat split.
  - exists s. split; [apply same_core_refl|]. right.
    exists "add_source", [VStr path]. unfold add_source, bind. simpl.
    destruct (_put w "add_source" [VStr path] s) as [[q|e] s1];
      by repeat split.
  - unfold add_filter, bind, gets. simpl.
    destruct (decide (path ∈ _loaded_filters s)); simpl.
    + exists s. split; [apply same_core_refl|]. left. apply same_core_refl.
    + exists (set_loaded ({[path]} ∪ _loaded_filters s) s).
      split; [by repeat split|]. right. exists "add_filter", [VStr path].
      destruct (_put w "add_filter" [VStr path] _) as [[q|e] s1];
        by repeat split.
  - exists s. split; [apply same_core_refl|]. right.
    exists "set_source_attributes", [VDict context].
    unfold set_source_attributes, bind. simpl.
    destruct (_put w "set_source_attributes" [VDict context] s)
      as [[q|e] s1]; by repeat split.
  - exists s. split; [apply same_core_refl|]. right.
    exists "set_custom", [custom]. unfold set_custom, bind. simpl.
    destruct (_put w "set_custom" [custom] s) as [[q|e] s1];
      by repeat split.
  - exists s. split; [apply same_core_refl|]. right.
    exists "on_event", [VDict context]. unfold on_event, bind. simpl.
    destruct (_put w "on_event" [VDict context] s) as [[q|e] s1];
      by repeat split.
  - by destruct (Hc context).
  - exists s. split; [apply same_core_refl|]. left. by repeat split.
  - exists s. split; [apply same_core_refl|]. left. by repeat split.
  - exists s. split; [apply same_core_refl|]. left. by repeat split.
Qed.

Lemma perform_merge_results (w : world) (context : UserContext) (s : t) :
  snd (perform w (MergeResults context) s)
    = snd (merge_results w context s).
Proof.
  simpl. unfold discard, bind.
  by destruct (merge_results w context s) as [[v|e] s1].
Qed.

(** A property of what is sent, of the handle and of the pending poll that
    [_put] and [merge_results] keep is kept by a whole session. *)
Lemma session_invariant (P : t -> Prop) :
  (forall s s', same_core s s' -> P s -> P s') ->
  (forall w name args s, P s -> P (snd (_put w name args s))) ->
  (forall w context s, P s -> P (snd (merge_results w context s))) ->
  forall calls s, P s -> P (session calls s).
Proof.
  intros Hcore Hput Hmerge calls.
  induction calls as [|[w c] rest IH]; intros s Hs; simpl; [done|].
  apply IH.
  assert ((exists context, c = MergeResults context) \/
          (forall context, c <> MergeResults context)) as [Hm|Hm]
    by (destruct c; eauto).
  - destruct Hm as [context ->]. rewrite perform_merge_results.
    by apply Hmerge.
  - destruct (perform_shape w c s Hm)
      as (s0 & H0 & [H1|(name & args & H1)]).
    + eapply Hcore; [exact H1|]. eapply Hcore; [exact H0|done].
    + eapply Hcore; [exact H1|]. apply Hput. eapply Hcore; [exact H0|done].
Qed.

(** The same for a property of what is sent and of the handle alone. *)
Lemma session_pipe_invariant (P : t -> Prop) :
  (forall s s', nothing_sent s s' -> _hnd s' = _hnd s -> P s -> P s') ->
  (forall w name args s, P s -> P (snd (_put w name args s))) ->
  forall calls s, P s -> P (session calls s).
Proof.
  intros Hframe Hput. apply session_invariant; [|done|].
  - intros s s' (Hn & Hh & _). by apply Hframe.
  - intros w context s Hs. rewrite merge_results_cases.
    destruct (fst (use_previous_id context s)) as [[|]|e]; [| |done].
    + pose proof (fetch_results_frame context (_queue_id s) s) as Hf.
      cbv zeta in Hf. destruct Hf as (Hn & Hh & _). by eapply Hframe.
    + specialize (Hput w "merge_results" [VDict context] s Hs).
      destruct (_put w "merge_results" [VDict context] s)
        as [[[q|]|e] s1]; simpl in *; try done.
      pose proof (fetch_results_frame context q s1) as Hf.
      cbv zeta in Hf. destruct Hf as (Hn & Hh & _). by eapply Hframe.
Qed.

(** X1: while the process handle is set, every envelope that has been
    packed is either written to the child or waiting in the input queue,
    and in the order it was packed: the messages written followed by the
    messages queued are the messages packed. *)
Theorem envelopes_in_order_while_alive
    (calls : list (world * call)) (s : t) :
  stdin_written s ++ _queue_in s = packed s ->
  _hnd (session calls s) <> None ->
  stdin_written (session calls s) ++ _queue_in (session calls s)
    = packed (session calls s).
Proof.
  intros Hs.
  apply (session_pipe_invariant
           (fun s => _hnd s <> None ->
                     stdin_written s ++ _queue_in s = packed s)).
  - intros s0 s' (Hp & Hq & Hw) Hh H0 Hlive. rewrite Hp, Hq, Hw.
    apply H0. by rewrite <- Hh.
  - intros w name args s0 H0. unfold _put.
    destruct (_hnd s0) as [task|] eqn:Hh; [|done]. simpl.
    specialize (H0 ltac:(done)).
    destruct (_stdin s0) as [tr|]; simpl.
    + pose proof (write_queue_spec (pipe_writes w)
        (_queue_in s0 ++ [pack name args (str_time w)])) as Hspec.
      destruct (write_queue _ _) as [[written kept] [|]]; simpl; [done|].
      destruct Hspec as [-> ->]. intros _.
      by rewrite app_nil_r, app_assoc, H0.
    + intros _. by rewrite app_assoc, H0.
  - by intros _.
Qed.

(** X2: when a write on the pipe fails, exactly one envelope is lost: the
    one whose write raised had been taken off the queue.  The messages
    before it are written, the ones behind it stay queued, and the host is
    shown the crash and the child's stderr. *)
Theorem broken_pipe_loses_one_envelope
    (w : world) (name : string) (args : list value) (s : t) :
  pipe_breaks w s = true ->
  let s' := snd (_put w name args s) in
  (exists lost n,
     pipe_writes w = Some n /\
     length (stdin_written s') = length (stdin_written s) + n /\
     stdin_written s ++ _queue_in s ++ [pack name args (str_time w)]
       = stdin_written s' ++ lost :: _queue_in s') /\
  vim_errors s' = vim_errors s ++
    [ErrorTb "Crash in child process"; Error ("stderr=" +:+ proc_stderr w)].
Proof.
  unfold pipe_breaks, _put.
  destruct (_hnd s) as [task|]; [|done].
  destruct (_stdin s) as [tr|] eqn:Hin; [|done].
  destruct (pipe_writes w) as [n|] eqn:Hw; [|done]. intros Hn. simpl.
  rewrite Hin. apply Nat.leb_le in Hn.
  pose proof (write_queue_breaks n
    (_queue_in s ++ [pack name args (str_time w)])) as Hb.
  rewrite length_app in Hb. simpl in Hb. specialize (Hb ltac:(lia)).
  pose proof (write_queue_spec (Some n)
    (_queue_in s ++ [pack name args (str_time w)])) as Hspec.
  destruct (write_queue _ _) as [[written kept] broken]. simpl in Hb.
  subst broken. simpl.
  destruct Hspec as (lost & k & Hk & Hlen & Hq). simplify_eq. split.
  - exists lost, (length written). rewrite length_app, Hq, <- app_assoc.
    done.
  - unfold error_tb, error. by rewrite <- app_assoc.
Qed.

(** X3: with the handle set, the pipe connected and no write failing, a
    [_put] empties the input queue onto the pipe: what was waiting is
    written first, in order, then the new envelope; nothing is shown to the
    host and the handle stays. *)
Theorem put_writes_backlog_in_order
    (w : world) (name : string) (args : list value) (s : t) :
  _hnd s <> None -> _stdin s <> None -> pipe_breaks w s = false ->
  let s' := snd (_put w name args s) in
  stdin_written s'
    = stdin_written s ++ _queue_in s ++ [pack name args (str_time w)] /\
  _queue_in s' = [] /\ _hnd s' = _hnd s /\ vim_errors s' = vim_errors s.
Proof.
  unfold pipe_breaks, _put.
  destruct (_hnd s) as [task|] eqn:Hh; [|done].
  destruct (_stdin s) as [tr|] eqn:Hin; [|done]. intros _ _ Hw. simpl.
  rewrite Hin. rewrite write_queue_healthy; [by repeat split|].
  destruct (pipe_writes w) as [n|]; [|done].
  apply Nat.leb_gt in Hw. rewrite length_app. simpl. lia.
Qed.

(** X4: before the pipe is connected a [_put] only queues its envelope,
    whatever state the pipe is in; connecting the pipe writes nothing; the
    first [_put] after that writes the whole backlog and its own envelope,
    in order. *)
Theorem backlog_waits_for_the_next_put
    (w1 w2 : world) (name1 name2 : string) (args1 args2 : list value)
    (s : t) :
  _hnd s <> None -> _stdin s = None ->
  match pipe_writes w2 with
  | Some n => length (_queue_in s) + 2 <= n
  | None => True
  end ->
  let msg1 := pack name1 args1 (str_time w1) in
  let msg2 := pack name2 args2 (str_time w2) in
  let s1 := snd (_put w1 name1 args1 s) in
  let s2 := snd (_connect_stdin s1) in
  let s3 := snd (_put w2 name2 args2 s2) in
  (stdin_written s1 = stdin_written s /\
   _queue_in s1 = _queue_in s ++ [msg1]) /\
  (stdin_written s2 = stdin_written s /\
   _queue_in s2 = _queue_in s ++ [msg1]) /\
  (stdin_written s3 = stdin_written s ++ _queue_in s ++ [msg1; msg2] /\
   _queue_in s3 = []).
Proof.
  intros Hh Hin Hw. cbv zeta.
  assert (_put w1 name1 args1 s =
          (Return (Some (str_time w1)),
           set_queue_in (_queue_in s ++ [pack name1 args1 (str_time w1)])
             (set_packed (packed s ++ [pack name1 args1 (str_time w1)]) s)))
    as Hput1.
  { unfold _put. destruct (_hnd s); [|done]. simpl. by rewrite Hin. }
  rewrite Hput1. simpl. repeat split; try done.
  - unfold _put. simpl. destruct (_hnd s); [|done]. simpl.
    rewrite write_queue_healthy; [by rewrite <- app_assoc|].
    destruct (pipe_writes w2) as [n|]; [|done].
    rewrite !length_app. simpl. lia.
  - unfold _put. simpl. destruct (_hnd s); [|done]. simpl.
    rewrite write_queue_healthy; [done|].
    destruct (pipe_writes w2) as [n|]; [|done].
    rewrite !length_app. simpl. lia.
Qed.

(** ** Draining the child's output *)

Lemma fold_left_error (texts : list string) (display : list diagnostic) :
  fold_left error texts display = display ++ map Error texts.
Proof.
  revert display. induction texts as [|text rest IH]; intros display; simpl.
  - by rewrite app_nil_r.
  - rewrite IH. unfold error. by rewrite <- app_assoc.
Qed.

(** The comprehension, when it returns, is the filter. *)
Lemma select_frames_filter (queue_id : string) (outs found : list value) :
  select_frames queue_id outs = Return found ->
  found = List.filter (answers queue_id) outs.
Proof.
  revert found. induction outs as [|x rest IH]; intros found; simpl.
  - congruence.
  - unfold answers at 1.
    destruct (subscript x "queue_id") as [id|e]; [|done].
    destruct (select_frames queue_id rest) as [found'|e]; [|done].
    rewrite <- (IH found' eq_refl). intros [= <-]. done.
Qed.

Lemma select_frames_total (queue_id : string) (outs : list value) :
  Forall (fun x => exists id, subscript x "queue_id" = Return id) outs ->
  select_frames queue_id outs = Return (List.filter (answers queue_id) outs).
Proof.
  induction 1 as [|x rest [id Hx] _ IH]; simpl; [done|].
  unfold answers at 1. by rewrite Hx, IH.
Qed.

(** A frame that answers a request is a mapping with that id. *)
Lemma answers_inv (queue_id : string) (frame : value) :
  answers queue_id frame = true ->
  exists d, frame = VDict d /\ dict_get "queue_id" d = Some (VStr queue_id).
Proof.
  unfold answers, subscript. destruct frame as [| | | | | | |d]; try done.
  destruct (dict_get "queue_id" d) as [id|] eqn:Hid; [|done]. intros Heq.
  exists d. split; [done|].
  destruct id; try done. simpl in Heq. apply String.eqb_eq in Heq.
  by subst.
Qed.

(** X5: with the handle set, [_get] always leaves the output queue and the
    error queue empty, whether it returns or raises, and everything that
    was on the error queue has been shown to the host, in order, possibly
    followed by the diagnostic about the contaminated output. *)
Theorem _get_drains_both_queues (queue_id : string) (s : t) :
  _hnd s <> None ->
  let s' := snd (_get queue_id s) in
  _queue_out s' = [] /\ _queue_err s' = [] /\
  exists tail,
    vim_errors s' = vim_errors s ++ map Error (_queue_err s) ++ tail /\
    (tail = [] \/ tail = [ErrorTb contaminated]).
Proof.
  intros Hh. unfold _get. destruct (_hnd s); [|done]. simpl.
  destruct (select_frames queue_id (_queue_out s)) as [found|[key|]]; simpl;
    repeat split; rewrite ?fold_left_error.
  - exists []. rewrite app_nil_r. by split; [|left].
  - exists []. rewrite app_nil_r. by split; [|left].
  - exists [ErrorTb contaminated]. unfold error_tb.
    rewrite <- app_assoc. by split; [|right].
Qed.

(** X6: what [_get] returns are frames of the output queue, in the order
    they arrived, and each of them is a mapping whose "queue_id" is the id
    asked for. *)
Theorem _get_returns_answers_only
    (queue_id : string) (s : t) (found : list value) :
  fst (_get queue_id s) = Return found ->
  found `sublist_of` _queue_out s /\
  Forall (fun frame => exists d, frame = VDict d /\
            dict_get "queue_id" d = Some (VStr queue_id)) found.
Proof.
  unfold _get. destruct (_hnd s); simpl.
  - destruct (select_frames queue_id (_queue_out s)) as [l|[key|]] eqn:Hsel;
      simpl; intros [= <-].
    + apply select_frames_filter in Hsel. subst l. split.
      * induction (_queue_out s) as [|x rest IH]; simpl; [done|].
        destruct (answers queue_id x);
          [by apply sublist_skip|by apply sublist_cons].
      * apply Forall_forall. intros x Hx.
        apply list_elem_of_In, filter_In in Hx. apply answers_inv, Hx.
    + split; [apply sublist_nil_l|done].
  - intros [= <-]. split; [apply sublist_nil_l|done].
Qed.

(** [_get] on a queue of mappings that all have a "queue_id". *)
Lemma _get_of_mappings (queue_id : string) (s : t) :
  _hnd s <> None ->
  Forall (fun x => exists id, subscript x "queue_id" = Return id)
    (_queue_out s) ->
  _get queue_id s
    = (Return (List.filter (answers queue_id) (_queue_out s)),
       set_queue_out []
         (set_queue_err []
            (set_errors (vim_errors s ++ map Error (_queue_err s)) s))).
Proof.
  intros Hh Hall. unfold _get. destruct (_hnd s); [|done]. simpl.
  rewrite (select_frames_total _ _ Hall). by rewrite fold_left_error.
Qed.

(** What [_get] returns, when it returns: nothing, or the frames that
    answer. *)
Lemma _get_found (queue_id : string) (s : t) (found : list value) :
  fst (_get queue_id s) = Return found ->
  found = [] \/ found = List.filter (answers queue_id) (_queue_out s).
Proof.
  unfold _get. destruct (_hnd s); simpl; [|intros [= <-]; by left].
  destruct (select_frames queue_id (_queue_out s)) as [l|[key|]] eqn:Hsel;
    simpl; intros [= <-]; [right|by left].
  by apply select_frames_filter.
Qed.

(** [_put] leaves the queues fed by the child alone. *)
Lemma _put_queues (w : world) (name : string) (args : list value) (s : t) :
  _queue_out (snd (_put w name args s)) = _queue_out s /\
  _queue_err (snd (_put w name args s)) = _queue_err s.
Proof.
  unfold _put. destruct (_hnd s) as [task|]; [|done]. simpl.
  destruct (_stdin s) as [tr|]; simpl; [|done].
  destruct (write_queue _ _) as [[written kept] broken].
  by destruct broken.
Qed.

(** X7: when the handle is set and every frame of the output queue is a
    mapping with a "queue_id", [_get] returns all the frames that carry the
    id asked for, in order, and shows nothing but the child's stderr. *)
Theorem _get_returns_every_answer (queue_id : string) (s : t) :
  _hnd s <> None ->
  Forall (fun x => exists id, subscript x "queue_id" = Return id)
    (_queue_out s) ->
  fst (_get queue_id s)
    = Return (List.filter (answers queue_id) (_queue_out s)) /\
  vim_errors (snd (_get queue_id s))
    = vim_errors s ++ map Error (_queue_err s).
Proof.
  intros Hh Hall. by rewrite (_get_of_mappings _ _ Hh Hall).
Qed.

End PipeFacts.

(** * Polling *)

Module PollFacts.
Import AsyncParent AsyncFacts PipeFacts.

(** The value of the test of [merge_results] on a context that has an event
    and a position. *)
Lemma use_previous_id_value
    (context : UserContext) (s : t) (event position : value) :
  dict_get "event" context = Some event ->
  dict_get "position" context = Some position ->
  use_previous_id context s
    = (Return (py_eq event (VStr "Async") &&
               py_eq position (_prev_pos s) &&
               str_truthy (_queue_id s)), s).
Proof.
  intros He Hp. run. rewrite He. simpl.
  destruct (py_eq event (VStr "Async")); simpl; [|done].
  rewrite Hp. simpl. by destruct (py_eq position (_prev_pos s)).
Qed.

(** A frame that answers is a non-empty mapping, hence true. *)
Lemma answers_truthy (queue_id : string) (frame : value) :
  answers queue_id frame = true -> truthy frame = true.
Proof.
  intros (d & -> & Hd)%answers_inv. by destruct d.
Qed.

Lemma result_tuple_shape (results v : value) :
  truthy results = true ->
  result_tuple results = Return v ->
  exists a m, v = VTuple [a; a; m].
Proof.
  unfold result_tuple. intros ->.
  destruct (subscript results "is_async") as [a|e]; [|done].
  destruct (subscript results "merged_results") as [m|e]; [|done].
  intros [= <-]. by exists a, m.
Qed.

Lemma fetch_results_shape
    (context : UserContext) (queue_id : string) (s : t) (v : value) :
  fst (fetch_results context queue_id s) = Return v ->
  v = still_async \/ exists a m, v = VTuple [a; a; m].
Proof.
  pose proof (_get_found queue_id s) as Hfound.
  unfold fetch_results, bind at 1.
  destruct (_get queue_id s) as [[get|e] s1]; simpl in *; [|done].
  destruct get as [|results others].
  - run. destruct (dict_get "position" context); simpl; [|done].
    intros [= <-]. by left.
  - destruct (Hfound _ eq_refl) as [?|Hf]; [done|].
    assert (answers queue_id results = true) as Ha.
    { assert (In results (List.filter (answers queue_id) (_queue_out s)))
        as Hin by (rewrite <- Hf; by left).
      by apply filter_In in Hin as [_ ?]. }
    run. intros Hr. right.
    eapply result_tuple_shape; [by eapply answers_truthy|done].
Qed.

(** X8: whatever [merge_results] returns is a triple: (True, False, []),
    (False, False, []), or a result with its first two fields equal.  The
    pair (False, []) of the source is never returned by this strategy,
    since a matching frame is a non-empty mapping. *)
Theorem merge_results_returns_a_triple
    (w : world) (context : UserContext) (s : t) (v : value) :
  fst (merge_results w context s) = Return v ->
  v = still_async \/ v = no_result \/ exists a m, v = VTuple [a; a; m].
Proof.
  rewrite merge_results_cases.
  destruct (fst (use_previous_id context s)) as [[|]|e]; [| |done].
  - intros [?|?]%fetch_results_shape; tauto.
  - destruct (_put w "merge_results" [VDict context] s) as [[[q|]|e] s1];
      [| |done].
    + intros [?|?]%fetch_results_shape; tauto.
    + intros [= <-]. tauto.
Qed.

(** X9: with the handle set, on a context that has an event and a
    position, [merge_results] packs a fresh envelope exactly when the
    outstanding id is not taken again: nothing when the event is "Async",
    the position is the recorded one and an id is outstanding, one
    envelope in every other case. *)
Theorem fresh_envelope_unless_reused
    (w : world) (context : UserContext) (s : t) (event position : value) :
  _hnd s <> None ->
  dict_get "event" context = Some event ->
  dict_get "position" context = Some position ->
  packed (snd (merge_results w context s))
    = packed s ++
      (if py_eq event (VStr "Async") && py_eq position (_prev_pos s) &&
          str_truthy (_queue_id s)
       then []
       else [pack "merge_results" [VDict context] (str_time w)]).
Proof.
  intros Hh He Hp. rewrite merge_results_cases.
  rewrite (use_previous_id_value _ _ _ _ He Hp). simpl.
  destruct (py_eq event (VStr "Async") && py_eq position (_prev_pos s) &&
            str_truthy (_queue_id s)).
  - rewrite app_nil_r. apply fetch_results_frame.
  - pose proof (_put_live w "merge_results" [VDict context] s Hh) as Hl.
    cbv zeta in Hl. destruct Hl as (Hid & Hpk & _).
    destruct (_put w "merge_results" [VDict context] s) as [r s1].
    simpl in *. subst r. rewrite <- Hpk. apply fetch_results_frame.
Qed.

(** X10: a poll under a new id throws away every response that is waiting
    for another id: the output queue is empty afterwards, the call answers
    (True, False, []) and the new id is the outstanding one. *)
Theorem new_request_discards_waiting_responses
    (w : world) (context : UserContext) (s : t) (position : value) :
  _hnd s <> None ->
  pipe_breaks w s = false ->
  fst (use_previous_id context s) = Return false ->
  dict_get "position" context = Some position ->
  Forall (fun x => exists id, subscript x "queue_id" = Return id /\
                              py_eq id (VStr (str_time w)) = false)
    (_queue_out s) ->
  let s' := snd (merge_results w context s) in
  fst (merge_results w context s) = Return still_async /\
  _queue_out s' = [] /\
  _queue_id s' = str_time w /\ _prev_pos s' = position.
Proof.
  intros Hh Hw Hu Hpos Hout. cbv zeta.
  pose proof (_put_live w "merge_results" [VDict context] s Hh) as Hl.
  cbv zeta in Hl. destruct Hl as (Hid & _).
  pose proof (_put_healthy w "merge_results" [VDict context] s Hw) as Hh1.
  pose proof (_put_queues w "merge_results" [VDict context] s) as [Hqo Hqe].
  destruct (_put w "merge_results" [VDict context] s) as [r s1] eqn:Hput.
  simpl in *. subst r.
  assert (obtains_id w context s (str_time w) s1) as Ho.
  { apply id_dispatched; [by apply use_previous_id_false|done]. }
  rewrite (merge_results_fetch _ _ _ _ _ Ho).
  assert (List.filter (answers (str_time w)) (_queue_out s1) = []) as Hnone.
  { rewrite Hqo. clear -Hout.
    induction Hout as [|x rest (id & Hx & Hne) _ IH]; simpl; [done|].
    unfold answers at 1. by rewrite Hx, Hne. }
  assert (_get (str_time w) s1 =
          (Return [],
           set_queue_out []
             (set_queue_err []
                (set_errors (vim_errors s1 ++ map Error (_queue_err s1))
                   s1)))) as Hget.
  { rewrite _get_of_mappings; [by rewrite Hnone|by rewrite Hh1|].
    rewrite Hqo. eapply Forall_impl; [exact Hout|].
    intros x (id & Hx & _). by exists id. }
  rewrite (fetch_results_none _ _ _ _ _ Hget Hpos). done.
Qed.

(** A [_put] that goes through: the id, and what it leaves alone. *)
Lemma _put_goes_through
    (w : world) (name : string) (args : list value) (s : t) :
  _hnd s <> None -> pipe_breaks w s = false ->
  exists s0,
    _put w name args s = (Return (Some (str_time w)), s0) /\
    _hnd s0 <> None /\ _queue_out s0 = _queue_out s /\
    packed s0 = packed s ++ [pack name args (str_time w)].
Proof.
  intros Hh Hw.
  pose proof (_put_live w name args s Hh) as Hl.
  cbv zeta in Hl. destruct Hl as (Hid & Hpk & _).
  pose proof (_put_healthy w name args s Hw) as Hh0.
  pose proof (_put_queues w name args s) as [Hqo _].
  destruct (_put w name args s) as [r s0]. simpl in *. subst r.
  exists s0. repeat split; try done. by rewrite Hh0.
Qed.

(** A poll on an empty output queue, with the handle set and the pipe
    healthy: it records a pending poll under an id that is not empty. *)
Lemma first_poll (w : world) (context : UserContext) (s : t)
    (event position : value) :
  _hnd s <> None -> pipe_breaks w s = false -> _queue_out s = [] ->
  dict_get "event" context = Some event ->
  dict_get "position" context = Some position ->
  exists s1,
    merge_results w context s = (Return still_async, s1) /\
    _queue_id s1 <> "" /\ _prev_pos s1 = position /\
    _hnd s1 <> None /\ _queue_out s1 = [].
Proof.
  intros Hh Hw Hout He Hp.
  assert (exists queue_id s0,
            obtains_id w context s queue_id s0 /\ queue_id <> "" /\
            _hnd s0 <> None /\ _queue_out s0 = [])
    as (q & s0 & Ho & Hq & Hh0 & Hout0).
  { pose proof (use_previous_id_value context s event position He Hp) as Hu.
    destruct (py_eq event (VStr "Async") && py_eq position (_prev_pos s) &&
              str_truthy (_queue_id s)) eqn:Hb.
    - exists (_queue_id s), s. split; [by apply id_reused|].
      split; [|done]. intros Hq. rewrite Hq in Hb.
      by rewrite andb_false_r in Hb.
    - destruct (_put_goes_through w "merge_results" [VDict context] s Hh Hw)
        as (s0 & Hput & Hh0 & Hqo & _).
      exists (str_time w), s0. split; [by apply id_dispatched|].
      split; [done|]. split; [done|]. by rewrite Hqo. }
  assert (_get q s0 =
          (Return [],
           set_queue_out []
             (set_queue_err []
                (set_errors (vim_errors s0 ++ map Error (_queue_err s0))
                   s0)))) as Hget.
  { rewrite _get_of_mappings; [by rewrite Hout0|done|by rewrite Hout0]. }
  eexists. rewrite (merge_results_fetch _ _ _ _ _ Ho).
  rewrite (fetch_results_none _ _ _ _ _ Hget Hp).
  split; [reflexivity|]. by repeat split.
Qed.

(** X11: a poll, the response, a second poll.  With the handle set, the
    pipe healthy and nothing waiting on the output queue, a poll on an
    "Async" context answers (True, False, []); once the frame carrying the
    recorded id has been decoded, the next poll on that context returns
    the frame's (is_async, is_async, merged_results), packs no second
    envelope and leaves no poll outstanding. *)
Theorem poll_response_poll
    (w1 w2 : world) (context : UserContext) (s : t)
    (position frame is_async merged : value) :
  _hnd s <> None -> pipe_breaks w1 s = false -> _queue_out s = [] ->
  dict_get "event" context = Some (VStr "Async") ->
  dict_get "position" context = Some position ->
  py_eq position position = true ->
  let s1 := snd (merge_results w1 context s) in
  subscript frame "queue_id" = Return (VStr (_queue_id s1)) ->
  subscript frame "is_async" = Return is_async ->
  subscript frame "merged_results" = Return merged ->
  let s2 := snd (perform w2 (FrameDecoded frame) s1) in
  let s3 := snd (merge_results w2 context s2) in
  fst (merge_results w1 context s) = Return still_async /\
  fst (merge_results w2 context s2)
    = Return (VTuple [is_async; is_async; merged]) /\
  packed s3 = packed s1 /\ _queue_id s3 = "" /\ _queue_out s3 = [].
Proof.
  intros Hh Hw Hout He Hp Hrefl. cbv zeta.
  destruct (first_poll w1 context s _ _ Hh Hw Hout He Hp)
    as (s1 & Hm1 & Hq1 & Hp1 & Hh1 & Hout1).
  rewrite Hm1. simpl. intros Hfq Hfa Hfm.
  set (s2 := set_queue_out (_queue_out s1 ++ [frame]) s1).
  assert (obtains_id w2 context s2 (_queue_id s2) s2) as Ho.
  { apply id_reused.
    apply (use_previous_id_true context s2 (VStr "Async") position);
      try done. simpl. by rewrite Hp1. }
  assert (answers (_queue_id s1) frame = true) as Hans.
  { unfold answers. rewrite Hfq. simpl. apply String.eqb_refl. }
  assert (_get (_queue_id s2) s2 =
          (Return [frame],
           set_queue_out []
             (set_queue_err []
                (set_errors (vim_errors s2 ++ map Error (_queue_err s2))
                   s2)))) as Hget.
  { rewrite _get_of_mappings; [|done|].
    - simpl. rewrite Hout1. simpl. by rewrite Hans.
    - simpl. rewrite Hout1. simpl. repeat constructor. by eexists. }
  rewrite (merge_results_fetch _ _ _ _ _ Ho).
  rewrite (fetch_results_some _ _ _ _ _ _ Hget).
  rewrite (result_tuple_fields _ _ _ Hfa Hfm). by repeat split.
Qed.

(** A poll of a dead process that has a poll outstanding. *)
Lemma dead_poll (w : world) (context : UserContext) (s : t)
    (position : value) :
  _hnd s = None -> _queue_id s <> "" ->
  dict_get "event" context = Some (VStr "Async") ->
  dict_get "position" context = Some position ->
  py_eq position (_prev_pos s) = true ->
  merge_results w context s
    = (Return still_async,
       set_prev_pos position (set_queue_id (_queue_id s) s)).
Proof.
  intros Hh Hq He Hp Heq.
  assert (obtains_id w context s (_queue_id s) s) as Ho.
  { apply id_reused.
    by apply (use_previous_id_true context s (VStr "Async") position). }
  rewrite (merge_results_fetch _ _ _ _ _ Ho).
  by rewrite (fetch_results_none _ _ _ _ _ (_get_dead _ _ Hh) Hp).
Qed.

(** X12: once the handle is cleared while a poll is outstanding, polling
    the same "Async" context never ends: however often it is polled, the
    next poll answers (True, False, []) again, the id stays outstanding and
    the output queue is never drained. *)
Theorem dead_process_is_polled_forever
    (calls : list (world * call)) (w : world) (context : UserContext)
    (s : t) (position : value) :
  _hnd s = None -> _queue_id s <> "" ->
  dict_get "event" context = Some (VStr "Async") ->
  dict_get "position" context = Some position ->
  py_eq position (_prev_pos s) = true ->
  py_eq position position = true ->
  Forall (fun wc => snd wc = MergeResults context) calls ->
  let s' := session calls s in
  fst (merge_results w context s') = Return still_async /\
  _queue_id s' = _queue_id s /\ _queue_out s' = _queue_out s.
Proof.
  intros Hh Hq He Hp Heq Hrefl Hcalls. cbv zeta.
  revert s Hh Hq Heq.
  induction Hcalls as [|[w0 c] rest Hc _ IH]; intros s Hh Hq Heq; simpl.
  - by rewrite (dead_poll w context s position).
  - simpl in Hc. subst c. rewrite perform_merge_results.
    rewrite (dead_poll w0 context s position) by done. simpl.
    specialize (IH (set_prev_pos position (set_queue_id (_queue_id s) s))).
    simpl in IH. by apply IH.
Qed.

Lemma _put_packed (w : world) (name : string) (args : list value) (s : t) :
  packed (snd (_put w name args s)) = packed s \/
  packed (snd (_put w name args s))
    = packed s ++ [pack name args (str_time w)].
Proof.
  destruct (_hnd s) eqn:Hh.
  - right. apply _put_live. by rewrite Hh.
  - left. by rewrite (_put_dead _ _ _ _ Hh).
Qed.

(** The outstanding id after the fetch: the id fetched, none, or the one
    there was. *)
Lemma fetch_results_queue_id
    (context : UserContext) (queue_id : string) (s : t) :
  let s' := snd (fetch_results context queue_id s) in
  _queue_id s' = queue_id \/ _queue_id s' = "" \/
  _queue_id s' = _queue_id s.
Proof.
  pose proof (_get_frame queue_id s) as Hg. cbv zeta in Hg.
  destruct Hg as (_ & _ & _ & Hq & _). cbv zeta.
  remember (snd (fetch_results context queue_id s)) as s' eqn:Hs'.
  unfold fetch_results, bind at 1 in Hs'.
  destruct (_get queue_id s) as [[get|e] s1]; simpl in *;
    [|subst s'; by right; right].
  destruct get as [|results others]; run.
  - left. subst s'. by destruct (dict_get "position" context).
  - right. left. subst s'. by destruct (result_tuple results).
Qed.

(** X13: the outstanding poll id is always the id of a request that was
    sent: through any session, it is empty or it is the "queue_id" of a
    "merge_results" envelope that has been packed. *)
Theorem pending_id_was_packed (calls : list (world * call)) (s : t) :
  (_queue_id s = "" \/
   exists context,
     pack "merge_results" [VDict context] (_queue_id s) ∈ packed s) ->
  let s' := session calls s in
  _queue_id s' = "" \/
  exists context,
    pack "merge_results" [VDict context] (_queue_id s') ∈ packed s'.
Proof.
  cbv zeta.
  apply (session_invariant
           (fun s => _queue_id s = "" \/
                     exists context,
                       pack "merge_results" [VDict context] (_queue_id s)
                         ∈ packed s)).
  - intros s0 s' ((Hp & _) & _ & Hq & _). by rewrite Hp, Hq.
  - intros w name args s0 [H0|[context H0]].
    + left. pose proof (_put_frame w name args s0) as Hf. cbv zeta in Hf.
      destruct Hf as (_ & -> & _). done.
    + right. exists context.
      pose proof (_put_frame w name args s0) as Hf. cbv zeta in Hf.
      destruct Hf as (_ & -> & _).
      destruct (_put_packed w name args s0) as [->| ->]; [done|].
      apply elem_of_app. by left.
  - intros w context s0 H0. rewrite merge_results_cases.
    destruct (fst (use_previous_id context s0)) as [[|]|e]; [| |done].
    + pose proof (fetch_results_frame context (_queue_id s0) s0) as Hf.
      cbv zeta in Hf. destruct Hf as ((Hp & _) & _).
      pose proof (fetch_results_queue_id context (_queue_id s0) s0) as Hq.
      cbv zeta in Hq. rewrite Hp.
      destruct Hq as [-> |[-> | ->]]; tauto.
    + pose proof (_put_frame w "merge_results" [VDict context] s0) as Hf.
      cbv zeta in Hf. destruct Hf as (_ & Hq1 & _).
      pose proof (_put_packed w "merge_results" [VDict context] s0) as Hpk.
      destruct (_put w "merge_results" [VDict context] s0)
        as [[[q|]|e] s1] eqn:Hput; simpl in *.
      * pose proof (_put_id _ _ _ _ _ _ Hput) as ->.
        assert (packed s1 = packed s0 ++
                  [pack "merge_results" [VDict context] (str_time w)])
          as Hpk1.
        { destruct (_hnd s0) eqn:Hh.
          - pose proof (_put_live w "merge_results" [VDict context] s0)
              as Hl. cbv zeta in Hl. rewrite Hput, Hh in Hl.
            by destruct (Hl ltac:(done)) as (_ & ? & _).
          - rewrite (_put_dead _ _ _ _ Hh) in Hput. done. }
        pose proof (fetch_results_frame context (str_time w) s1) as Hf.
        cbv zeta in Hf. destruct Hf as ((Hp & _) & _).
        pose proof (fetch_results_queue_id context (str_time w) s1) as Hq.
        cbv zeta in Hq. rewrite Hp, Hpk1.
        destruct Hq as [-> |[-> | ->]].
        -- right. exists context. apply elem_of_app. right.
           by apply list_elem_of_singleton.
        -- by left.
        -- rewrite Hq1. destruct H0 as [?|[c0 H0]]; [by left|].
           right. exists c0. apply elem_of_app. by left.
      * rewrite Hq1. destruct H0 as [?|[c0 H0]]; [by left|].
        right. exists c0. destruct Hpk as [-> | ->]; [done|].
        apply elem_of_app. by left.
      * rewrite Hq1. destruct H0 as [?|[c0 H0]]; [by left|].
        right. exists c0. destruct Hpk as [-> | ->]; [done|].
        apply elem_of_app. by left.
Qed.

Lemma add_source_put (w : world) (path : string) (s : t) :
  snd (add_source w path s) = snd (_put w "add_source" [VStr path] s).
Proof.
  unfold add_source, bind. simpl.
  by destruct (_put w "add_source" [VStr path] s) as [[q|e] s1].
Qed.

(** X14: sources, unlike filters, are not remembered: adding the same
    source twice packs two envelopes. *)
Theorem add_source_is_not_deduplicated
    (w1 w2 : world) (path : string) (s : t) :
  _hnd s <> None -> pipe_breaks w1 s = false ->
  let s1 := snd (add_source w1 path s) in
  let s2 := snd (add_source w2 path s1) in
  packed s2 = packed s ++ [pack "add_source" [VStr path] (str_time w1);
                           pack "add_source" [VStr path] (str_time w2)].
Proof.
  intros Hh Hw. cbv zeta. rewrite !add_source_put.
  destruct (_put_goes_through w1 "add_source" [VStr path] s Hh Hw)
    as (s1 & Hput & Hh1 & _ & Hpk1).
  rewrite Hput. simpl.
  pose proof (_put_live w2 "add_source" [VStr path] s1 Hh1) as Hl.
  cbv zeta in Hl. destruct Hl as (_ & -> & _).
  by rewrite Hpk1, <- app_assoc.
Qed.

(** X15: [enable_logging] always returns and always leaves
    [is_debug_enabled] set, also when the handle is cleared and the child
    is told nothing. *)
Theorem enable_logging_sets_the_flag (w : world) (s : t) :
  let s' := snd (enable_logging w s) in
  fst (enable_logging w s) = Return tt /\
  is_debug_enabled s' = true /\
  (_hnd s = None -> nothing_sent s s').
Proof.
  cbv zeta. unfold enable_logging, bind. simpl.
  destruct (_hnd s) eqn:Hh.
  - pose proof (_put_live w "enable_logging" [] s) as Hl. cbv zeta in Hl.
    rewrite Hh in Hl. destruct (Hl ltac:(done)) as (Hid & _).
    destruct (_put w "enable_logging" [] s) as [r s1]. simpl in Hid.
    subst r. by repeat split.
  - rewrite (_put_dead _ _ _ _ Hh). by repeat split.
Qed.

End PollFacts.

(** * The in-process strategy *)

Module SyncFacts.
Section WithChild.
Variable Child : Type.
Variable child_main : string -> list value -> M Child unit.
Variable child_merge_results : UserContext -> M Child value.

Local Existing Instance SyncParent.parent.

Abbreviation sync_add_filter :=
  (@add_filter (SyncParent.t Child) (SyncParent.parent Child child_main)).
Abbreviation sync_enable_logging :=
  (@enable_logging (SyncParent.t Child) (SyncParent.parent Child child_main)).

(** X16: [add_filter] records the path before it calls the child.  When
    the child's [main] raises on the first call, the exception reaches the
    caller, the path is recorded all the same, and a second [add_filter] of
    that path returns without calling the child: the filter is never
    retried. *)
Theorem failed_filter_is_not_retried
    (w : world) (path : string) (s : SyncParent.t Child)
    (e : exn) (c' : Child) :
  path ∉ SyncParent._loaded_filters Child s ->
  child_main "add_filter" [VStr path] (SyncParent._child Child s)
    = (Raise e, c') ->
  let s' := snd (sync_add_filter w path s) in
  fst (sync_add_filter w path s) = Raise e /\
  path ∈ SyncParent._loaded_filters Child s' /\
  forall w', sync_add_filter w' path s' = (Return tt, s').
Proof.
  intros Hnew Hraise. cbv zeta.
  assert (sync_add_filter w path s =
          (Raise e,
           SyncParent.with_child Child c'
             {| SyncParent._loaded_filters :=
                  {[path]} ∪ SyncParent._loaded_filters Child s;
                SyncParent.is_debug_enabled :=
                  SyncParent.is_debug_enabled Child s;
                SyncParent._child := SyncParent._child Child s |})) as ->.
  { unfold add_filter, bind, gets. simpl.
    destruct (decide (path ∈ SyncParent._loaded_filters Child s)); [done|].
    simpl. unfold SyncParent._put, SyncParent.in_child, bind. simpl.
    by rewrite Hraise. }
  simpl. split; [done|].
  assert (path ∈ {[path]} ∪ SyncParent._loaded_filters Child s) as Hin
    by (apply elem_of_union; left; by apply elem_of_singleton).
  split; [done|]. intros w'. unfold add_filter, bind, gets. simpl.
  by destruct (decide (path ∈ {[path]} ∪ SyncParent._loaded_filters Child s)).
Qed.

(** X17: what the in-process [merge_results] returns depends on the truth
    of the child's result: for a false one (None, an empty mapping) it is
    the pair (False, []), with two fields only; for a true one it is a
    triple with its first two fields equal. *)
Theorem sync_merge_results_shape
    (context : UserContext) (s : SyncParent.t Child)
    (results v : value) (c' : Child) :
  child_merge_results context (SyncParent._child Child s)
    = (Return results, c') ->
  fst (SyncParent.merge_results Child child_merge_results context s)
    = Return v ->
  if truthy results then exists a m, v = VTuple [a; a; m]
  else v = VTuple [VBool false; VList []].
Proof.
  intros Hc. unfold SyncParent.merge_results, SyncParent.in_child, bind, lift.
  rewrite Hc. simpl. unfold result_tuple.
  destruct (truthy results); [|by intros [= <-]].
  destruct (subscript results "is_async") as [a|e0]; [|done].
  destruct (subscript results "merged_results") as [m|e0]; [|done].
  intros [= <-]. by exists a, m.
Qed.

(** X18: in the in-process strategy [enable_logging] sets
    [is_debug_enabled] only after the child's [main] has returned: when
    the child raises, the exception reaches the caller and the flag is as
    it was. *)
Theorem sync_enable_logging_needs_the_child
    (w : world) (s : SyncParent.t Child) (r : result unit) (c' : Child) :
  child_main "enable_logging" [] (SyncParent._child Child s) = (r, c') ->
  let s' := snd (sync_enable_logging w s) in
  match r with
  | Return _ =>
      fst (sync_enable_logging w s) = Return tt /\
      SyncParent.is_debug_enabled Child s' = true
  | Raise e =>
      fst (sync_enable_logging w s) = Raise e /\
      SyncParent.is_debug_enabled Child s'
        = SyncParent.is_debug_enabled Child s
  end.
Proof.
  intros Hc. cbv zeta. unfold enable_logging, bind. simpl.
  unfold SyncParent._put, SyncParent.in_child, bind. simpl. rewrite Hc.
  by destruct r.
Qed.

End WithChild.
End SyncFacts.

(** * The interpreter *)

Module ExecutableFacts.
Import Executable.

Lemma first_file_spec (h : host) (paths : list string) :
  match first_file h paths with
  | Some guess =>
      exists tried check rest,
        paths = tried ++ check :: rest /\
        guess = join h (sys_exec_prefix h) check /\
        isfile h guess = true /\
        Forall (fun c => isfile h (join h (sys_exec_prefix h) c) = false)
          tried
  | None =>
      Forall (fun c => isfile h (join h (sys_exec_prefix h) c) = false) paths
  end.
Proof.
  induction paths as [|check rest IH]; simpl; [done|].
  destruct (isfile h (join h (sys_exec_prefix h) check)) eqn:Hf.
  - exists [], check, rest. by repeat split.
  - destruct (first_file h rest) as [guess|].
    + destruct IH as (tried & c & rest' & -> & Hg & Hfile & Htried).
      exists (check :: tried), c, rest'. repeat split; try done.
      by constructor.
    + by constructor.
Qed.

(** X19: [_get_python_executable] returns the running interpreter when its
    base name, in lower case, starts with "python".  Otherwise it returns
    the first of the probed paths that is a file, no earlier probe being
    one; the host's [python3_host_prog], or "python3" when it is not set,
    is returned only when no probe is a file. *)
Theorem python_executable_first_match (h : host) :
  let result := _get_python_executable h in
  let probe c := join h (sys_exec_prefix h) c in
  if String.prefix "python" (lower h (basename h (sys_executable h))) then
    result = sys_executable h
  else
    (exists tried check rest,
       checks h = tried ++ check :: rest /\
       result = probe check /\ isfile h result = true /\
       Forall (fun c => isfile h (probe c) = false) tried) \/
    (Forall (fun c => isfile h (probe c) = false) (checks h) /\
     result = default "python3" (python3_host_prog h)).
Proof.
  cbv zeta. unfold _get_python_executable.
  destruct (String.prefix "python" (lower h (basename h (sys_executable h))));
    simpl; [done|].
  pose proof (first_file_spec h (checks h)) as Hs.
  destruct (first_file h (checks h)) as [guess|]; [left|right]; done.
Qed.

End ExecutableFacts.

(** * The further properties on the scenario *)

Module ScenarioFacts.
Import AsyncParent Scenario.

(** The pipe is connected while two envelopes are waiting. *)
Abbreviation backlog := (set_stdin (Some pipe_transport) buffering).

(** The generic methods on a parent whose child fails. *)
Abbreviation failing_add_filter :=
  (@add_filter (SyncParent.t unit) (SyncParent.parent unit failing_child)).
Abbreviation failing_enable_logging :=
  (@enable_logging (SyncParent.t unit)
     (SyncParent.parent unit failing_child)).

Lemma envelopes_in_order_while_alive_witness :
  let calls := [(at_time "7", AddSource "a.py");
                (at_time "7.25", ConnectStdin);
                (at_time "7.5", MergeResults async_context)] in
  stdin_written (session calls started) ++ _queue_in (session calls started)
    = packed (session calls started).
Proof.
  apply (PipeFacts.envelopes_in_order_while_alive
           [(at_time "7", AddSource "a.py");
            (at_time "7.25", ConnectStdin);
            (at_time "7.5", MergeResults async_context)] started).
  - reflexivity.
  - vm_compute. discriminate.
Defined.

Lemma broken_pipe_loses_one_envelope_witness :
  pipe_breaks (child_gone "8.5") backlog = true /\
  vim_errors (snd (_put (child_gone "8.5") "on_event" [] backlog))
    = [ErrorTb "Crash in child process"; Error "stderr=Traceback"].
Proof.
  split; [reflexivity|].
  apply (PipeFacts.broken_pipe_loses_one_envelope (child_gone "8.5")
           "on_event" [] backlog). reflexivity.
Defined.

Lemma put_writes_backlog_in_order_witness :
  _queue_in backlog <> [] /\
  _queue_in (snd (_put (at_time "8.5") "on_event" [] backlog)) = [].
Proof.
  split; [discriminate|].
  apply (PipeFacts.put_writes_backlog_in_order (at_time "8.5")
           "on_event" [] backlog);
    [discriminate|discriminate|reflexivity].
Defined.

Lemma backlog_waits_for_the_next_put_witness :
  _queue_in
    (snd (_put (at_time "8.5") "on_event" []
            (snd (_connect_stdin
                    (snd (_put (at_time "8") "set_custom" [] polling))))))
    = [].
Proof.
  apply (PipeFacts.backlog_waits_for_the_next_put (at_time "8")
           (at_time "8.5") "set_custom" "on_event" [] [] polling);
    [discriminate|reflexivity|exact I].
Defined.

Lemma _get_drains_both_queues_witness :
  _queue_out (snd (_get "17.5" (set_queue_err ["warning"] answered))) = [] /\
  _queue_err (snd (_get "17.5" (set_queue_err ["warning"] answered))) = [].
Proof.
  destruct (PipeFacts._get_drains_both_queues "17.5"
              (set_queue_err ["warning"] answered)) as (Ho & He & _).
  - discriminate.
  - split; [exact Ho|exact He].
Defined.

Lemma _get_returns_answers_only_witness :
  [response "17.5"] `sublist_of` _queue_out answered.
Proof.
  apply (PipeFacts._get_returns_answers_only "17.5" answered
           [response "17.5"]). reflexivity.
Defined.

Lemma _get_returns_every_answer_witness :
  fst (_get "17.5" answered) = Return [response "17.5"].
Proof.
  apply (PipeFacts._get_returns_every_answer "17.5" answered).
  - discriminate.
  - repeat constructor. by eexists.
Defined.

Lemma merge_results_returns_a_triple_witness :
  still_async = still_async \/ still_async = no_result \/
  exists a m, still_async = VTuple [a; a; m].
Proof.
  apply (PollFacts.merge_results_returns_a_triple (at_time "7.5")
           async_context started still_async). reflexivity.
Defined.

Lemma fresh_envelope_unless_reused_witness :
  packed (snd (merge_results (at_time "8.5") async_context polling))
    = packed polling ++ [].
Proof.
  apply (PollFacts.fresh_envelope_unless_reused (at_time "8.5")
           async_context polling (VStr "Async") cursor);
    [discriminate|reflexivity|reflexivity].
Defined.

Lemma new_request_discards_waiting_responses_witness :
  _queue_out answered = [response "17.5"] /\
  fst (merge_results (at_time "8.5") insert_context answered)
    = Return still_async /\
  _queue_out (snd (merge_results (at_time "8.5") insert_context answered))
    = [].
Proof.
  split; [reflexivity|].
  destruct (PollFacts.new_request_discards_waiting_responses
              (at_time "8.5") insert_context answered cursor)
    as (Hr & Ho & _).
  - discriminate.
  - reflexivity.
  - reflexivity.
  - reflexivity.
  - repeat constructor. exists (VStr "17.5"). split; reflexivity.
  - split; [exact Hr|exact Ho].
Defined.

Lemma poll_response_poll_witness :
  fst (merge_results (at_time "7.5") async_context started)
    = Return still_async /\
  fst (merge_results (at_time "8.5") async_context answered)
    = Return (VTuple [VBool false; VBool false;
                      VList [VStr "foo"; VStr "bar"]]).
Proof.
  destruct (PollFacts.poll_response_poll (at_time "7.5") (at_time "8.5")
              async_context started cursor (response "17.5")
              (VBool false) (VList [VStr "foo"; VStr "bar"]))
    as (H1 & H2 & _); try reflexivity.
  - discriminate.
  - split; [exact H1|exact H2].
Defined.

Lemma dead_process_is_polled_forever_witness :
  fst (merge_results (at_time "9.5") async_context
         (session [(at_time "8.5", MergeResults async_context);
                   (at_time "9", MergeResults async_context)]
            (set_hnd None polling)))
    = Return still_async.
Proof.
  apply (PollFacts.dead_process_is_polled_forever
           [(at_time "8.5", MergeResults async_context);
            (at_time "9", MergeResults async_context)]
           (at_time "9.5") async_context (set_hnd None polling) cursor);
    try reflexivity.
  - discriminate.
  - repeat constructor.
Defined.

Lemma pending_id_was_packed_witness :
  let s' := session [(at_time "7.5", MergeResults async_context);
                     (at_time "8.5", AddSource "a.py")] started in
  _queue_id s' = "" \/
  exists context,
    pack "merge_results" [VDict context] (_queue_id s') ∈ packed s'.
Proof.
  apply (PollFacts.pending_id_was_packed
           [(at_time "7.5", MergeResults async_context);
            (at_time "8.5", AddSource "a.py")] started).
  left. reflexivity.
Defined.

Lemma add_source_is_not_deduplicated_witness :
  packed (snd (add_source (at_time "8.5") "a.py"
                 (snd (add_source (at_time "7.5") "a.py" started))))
    = [pack "add_source" [VStr "a.py"] "17.5";
       pack "add_source" [VStr "a.py"] "18.5"].
Proof.
  apply (PollFacts.add_source_is_not_deduplicated (at_time "7.5")
           (at_time "8.5") "a.py" started); [discriminate|reflexivity].
Defined.

Lemma enable_logging_sets_the_flag_witness :
  is_debug_enabled dead = false /\
  is_debug_enabled (snd (enable_logging (at_time "8.5") dead)) = true /\
  nothing_sent dead (snd (enable_logging (at_time "8.5") dead)).
Proof.
  split; [reflexivity|].
  destruct (PollFacts.enable_logging_sets_the_flag (at_time "8.5") dead)
    as (_ & Hflag & Hsent).
  split; [exact Hflag|]. apply Hsent. reflexivity.
Defined.

Lemma failed_filter_is_not_retried_witness :
  fst (failing_add_filter (at_time "7.5")
         "matcher_fuzzy.py" echo_parent)
    = Raise (KeyError "add_filter") /\
  "matcher_fuzzy.py" ∈
    SyncParent._loaded_filters unit
      (snd (failing_add_filter (at_time "7.5")
              "matcher_fuzzy.py" echo_parent)).
Proof.
  destruct (SyncFacts.failed_filter_is_not_retried unit failing_child
              (at_time "7.5") "matcher_fuzzy.py" echo_parent
              (KeyError "add_filter") tt) as (Hr & Hin & _).
  - apply not_elem_of_empty.
  - reflexivity.
  - split; [exact Hr|exact Hin].
Defined.

Lemma sync_merge_results_shape_witness :
  exists a m,
    VTuple [VBool false; VBool false; VList [VStr "foo"; VStr "bar"]]
      = VTuple [a; a; m].
Proof.
  apply (SyncFacts.sync_merge_results_shape unit echo_child async_context
           echo_parent (response "")
           (VTuple [VBool false; VBool false;
                    VList [VStr "foo"; VStr "bar"]]) tt);
    reflexivity.
Defined.

Lemma sync_enable_logging_needs_the_child_witness :
  fst (failing_enable_logging (at_time "7.5")
         echo_parent) = Raise (KeyError "enable_logging") /\
  SyncParent.is_debug_enabled unit
    (snd (failing_enable_logging (at_time "7.5")
            echo_parent)) = false.
Proof.
  apply (SyncFacts.sync_enable_logging_needs_the_child unit failing_child
           (at_time "7.5") echo_parent (Raise (KeyError "enable_logging"))
           tt). reflexivity.
Defined.

Lemma _get_contaminated_witness :
  fst (_get "17.5" (set_queue_out [response "17.5"; noise] polling))
    = Return [] /\
  vim_errors (snd (_get "17.5"
                     (set_queue_out [response "17.5"; noise] polling)))
    = [ErrorTb contaminated].
Proof.
  destruct (AsyncFacts._get_contaminated "17.5"
              (set_queue_out [response "17.5"; noise] polling)
              [response "17.5"] [] noise) as (Hr & _ & He).
  - discriminate.
  - reflexivity.
  - repeat constructor. by eexists.
  - discriminate.
  - split; [exact Hr|exact He].
Defined.

(** An editor that embeds Python finds the interpreter with the second
    probe. *)
Example embedded_python_executable :
  Executable._get_python_executable embedded = "/usr/bin/python3".
Proof. reflexivity. Qed.

End ScenarioFacts.
